(** * ArxivApi: metadata and citation retrieval, verified over a shallow embedding

    The development follows the class [ArxivApi] of the plugin: the
    abstract normaliser [formatAbstract], the feed parser
    [parseArxivResponse], the two fetch operations and the
    influential-paper filter.  Host facilities (the HTTP transport, the
    JSON and XML parsers, the identifier extractor of [utils/urlUtils]) are
    section variables: every theorem holds for all of them. *)

From Stdlib Require Import String Ascii List NArith ZArith Bool DecimalString.
From Stdlib Require Import Lia.
Import ListNotations.

Set Implicit Arguments.
Set Warnings "-register-all".

(* ===================================================================== *)
(** * Part I: definitions *)
(* ===================================================================== *)

(** ** JavaScript strings

    A string is its sequence of UTF-16 code units. *)

Definition code_unit := N.
Definition jsstring := list code_unit.

Definition lit (s : string) : jsstring :=
  map N_of_ascii (list_ascii_of_string s).

Definition LF : code_unit := 10%N.
Definition SPACE : code_unit := 32%N.
Definition LETTER_T : code_unit := 84%N.

(** The literal fallbacks of [parseArxivResponse]. *)
Definition NO_TITLE : jsstring := [51228; 47785; 32; 50630; 51020]%N.
Definition NO_ABSTRACT : jsstring := (lit "Abstract " ++ [50630; 51020])%N.
Definition NO_DATE : jsstring := [45216; 51676; 32; 50630; 51020]%N.

Fixpoint jsstring_eqb (a b : jsstring) : bool :=
  match a, b with
  | [], [] => true
  | x :: a', y :: b' => (x =? y)%N && jsstring_eqb a' b'
  | _, _ => false
  end.

(** The code units that [String.prototype.trim] strips and that the
    regular-expression class [\s] matches: WhiteSpace and LineTerminator
    of ECMAScript. *)
Definition is_whitespace (c : code_unit) : bool :=
  (existsb (N.eqb c)
     [9; 10; 11; 12; 13; 32; 160; 5760; 8232; 8233; 8239; 8287; 12288; 65279]
   || ((8192 <=? c) && (c <=? 8202)))%N.

Definition is_newline (c : code_unit) : bool := (c =? LF)%N.

Fixpoint trimStart (s : jsstring) : jsstring :=
  match s with
  | [] => []
  | c :: t => if is_whitespace c then trimStart t else s
  end.

Fixpoint trimEnd (s : jsstring) : jsstring :=
  match s with
  | [] => []
  | c :: t =>
      match trimEnd t with
      | [] => if is_whitespace c then [] else [c]
      | t' => c :: t'
      end
  end.

Definition trim (s : jsstring) : jsstring := trimEnd (trimStart s).

(** [s.replace(/C+/g, r)] for a character class [C] given as a predicate:
    the scan runs left to right, the first unit of a run emits [r] and the
    greedy match swallows the rest of the run. *)
Fixpoint replace_runs_from (p : code_unit -> bool) (r : jsstring)
    (in_run : bool) (s : jsstring) : jsstring :=
  match s with
  | [] => []
  | c :: t =>
      if p c
      then (if in_run then [] else r) ++ replace_runs_from p r true t
      else c :: replace_runs_from p r false t
  end.

Definition replace_runs (p : code_unit -> bool) (r s : jsstring) : jsstring :=
  replace_runs_from p r false s.

(** [s.split(sep)] for a separator of one code unit; the result is never
    empty (the empty string splits into one empty piece). *)
Fixpoint split (sep : code_unit) (s : jsstring) : list jsstring :=
  match s with
  | [] => [[]]
  | c :: t =>
      if (c =? sep)%N then [] :: split sep t
      else match split sep t with
           | piece :: rest => (c :: piece) :: rest
           | [] => [[c]]
           end
  end.

(** [parts.join(sep)] on an array of strings. *)
Fixpoint join (sep : jsstring) (parts : list jsstring) : jsstring :=
  match parts with
  | [] => []
  | [x] => x
  | x :: rest => x ++ sep ++ join sep rest
  end.

(** ** formatAbstract *)

Definition formatAbstract (text : jsstring) : jsstring :=
  let s1 := trim text in
  let s2 := replace_runs is_newline [LF] s1 in
  let s3 := replace_runs is_whitespace [SPACE] s2 in
  let paras := split LF s3 in
  join [LF; LF] (map trim paras).

(** The reading of "every maximal run of whitespace replaced by a single
    space" used to compare with the code: the string is cut into its
    maximal runs of whitespace and of non-whitespace, and each whitespace
    run is rendered as one space. *)
Fixpoint group_runs (p : code_unit -> bool) (s : jsstring)
    : list (bool * jsstring) :=
  match s with
  | [] => []
  | c :: t =>
      match group_runs p t with
      | (b, run) :: rest =>
          if Bool.eqb b (p c) then (b, c :: run) :: rest
          else (p c, [c]) :: (b, run) :: rest
      | [] => [(p c, [c])]
      end
  end.

(** Neighbouring pieces are of different kinds. *)
Fixpoint alternating (g : list (bool * jsstring)) : bool :=
  match g with
  | (b, _) :: (((b', _) :: _) as rest) => negb (Bool.eqb b b') && alternating rest
  | _ => true
  end.

Definition render_run (g : bool * jsstring) : jsstring :=
  if fst g then [SPACE] else snd g.

Definition whitespace_runs_to_space (s : jsstring) : jsstring :=
  concat (map render_run (group_runs is_whitespace s)).

Definition drop_ws_head (g : list (bool * jsstring)) : list (bool * jsstring) :=
  match g with
  | (true, _) :: rest => rest
  | _ => g
  end.

Definition no_leading_ws (s : jsstring) : bool :=
  match s with
  | [] => true
  | c :: _ => negb (is_whitespace c)
  end.

Fixpoint no_trailing_ws (s : jsstring) : bool :=
  match s with
  | [] => true
  | [c] => negb (is_whitespace c)
  | _ :: t => no_trailing_ws t
  end.

Definition trimmed (s : jsstring) : bool :=
  no_leading_ws s && no_trailing_ws s.

(** ** Errors and the result of a fallible call

    The three [throw new Error(...)] sites of the class are the kinds
    [InvalidInput], [UpstreamError] and [NotFound]; [TypeError] is raised
    by the engine (a property read on [null] or [undefined], a call of a
    non-function); [HostFailure] is whatever a host facility throws (a
    rejected request, the [SyntaxError] of [JSON.parse]). *)

Inductive error : Type :=
| InvalidInput
| UpstreamError (status : Z)
| NotFound
| TypeError
| HostFailure (detail : jsstring).

Inductive result (A : Type) : Type :=
| Ok (a : A)
| Raise (e : error).

Arguments Ok {A} a.
Arguments Raise {A} e.

Definition ret {A : Type} (a : A) : result A := Ok a.

(** What a call of a host facility does: it answers, or it throws. *)
Inductive outcome (A : Type) : Type :=
| Answered (a : A)
| Threw (detail : jsstring).

Arguments Answered {A} a.
Arguments Threw {A} detail.

Definition host {A : Type} (o : outcome A) : result A :=
  match o with
  | Answered a => Ok a
  | Threw detail => Raise (HostFailure detail)
  end.

Definition bind {A B : Type} (m : result A) (k : A -> result B) : result B :=
  match m with
  | Ok a => k a
  | Raise e => Raise e
  end.

Definition try_catch {A : Type} (body : result A) (handler : error -> result A)
    : result A :=
  match body with
  | Ok a => Ok a
  | Raise e => handler e
  end.

Declare Scope result_scope.
Delimit Scope result_scope with result.
Notation "x <- m ;; k" := (bind m (fun x => k))
  (at level 61, m at next level, right associativity) : result_scope.
Open Scope result_scope.

Fixpoint filterM {A : Type} (f : A -> result bool) (l : list A)
    : result (list A) :=
  match l with
  | [] => ret []
  | x :: t =>
      keep <- f x ;;
      rest <- filterM f t ;;
      ret (if keep then x :: rest else rest)
  end.

Fixpoint mapM {A B : Type} (f : A -> result B) (l : list A)
    : result (list B) :=
  match l with
  | [] => ret []
  | x :: t =>
      y <- f x ;;
      rest <- mapM f t ;;
      ret (y :: rest)
  end.

(** [v || d] where [v] is a string or [undefined] ([None]). *)
Definition or_default (v : option jsstring) (d : jsstring) : jsstring :=
  match v with
  | Some (c :: s) => c :: s
  | Some [] => d
  | None => d
  end.

(** ** The XML document

    Elements carry their local name and child nodes; comments, processing
    instructions and attributes take no part in the queries made here. *)

Inductive node : Type :=
| Element (localName : jsstring) (childNodes : list node)
| TextNode (data : jsstring).

(** A document is the list of children of its Document node. *)
Definition document := list node.

Fixpoint textContent (n : node) : jsstring :=
  match n with
  | TextNode d => d
  | Element _ cs => concat (map textContent cs)
  end.

(** An element together with the names of its ancestors, nearest first:
    what a selector with a descendant combinator looks at. *)
Record located : Type := Located { here : node; ancestors : list jsstring }.

(** The elements of a subtree in document order, the root included. *)
Fixpoint subtree_elements (anc : list jsstring) (n : node) : list located :=
  match n with
  | TextNode _ => []
  | Element nm cs =>
      Located n anc :: concat (map (subtree_elements (nm :: anc)) cs)
  end.

Definition document_elements (doc : document) : list located :=
  concat (map (subtree_elements []) doc).

Definition descendant_elements (e : located) : list located :=
  match here e with
  | Element nm cs => concat (map (subtree_elements (nm :: ancestors e)) cs)
  | TextNode _ => []
  end.

(** The two selector shapes of the class: a type selector ['entry'] and a
    descendant combinator ['author name']. *)
Inductive selector : Type :=
| TypeSel (name : jsstring)
| DescendantSel (ancestor name : jsstring).

Definition has_name (nm : jsstring) (n : node) : bool :=
  match n with
  | Element m _ => jsstring_eqb m nm
  | TextNode _ => false
  end.

Definition matches (sel : selector) (e : located) : bool :=
  match sel with
  | TypeSel nm => has_name nm (here e)
  | DescendantSel a nm =>
      has_name nm (here e) && existsb (jsstring_eqb a) (ancestors e)
  end.

Definition querySelector (sel : selector) (scope : list located)
    : option located :=
  find (matches sel) scope.

Definition querySelectorAll (sel : selector) (scope : list located)
    : list located :=
  filter (matches sel) scope.

(** ** Records of the service *)

Module ArxivMetadataType.
Record t : Type := Build {
  title : jsstring;
  paperLink : jsstring;
  publishDate : jsstring;
  authors : jsstring;
  abstract : jsstring
}.
End ArxivMetadataType.

Module Request.
Record t : Type := Build {
  url : jsstring;
  headers : list (jsstring * jsstring)
}.
End Request.

Module Response.
Record t : Type := Build {
  status : Z;
  text : jsstring
}.
End Response.

(** ** JavaScript values, as [JSON.parse] and property reads produce them.
    The number type of the host is a parameter. *)

Inductive jsval (number : Type) : Type :=
| VUndefined
| VNull
| VBool (b : bool)
| VNumber (n : number)
| VString (s : jsstring)
| VArray (items : list (jsval number))
| VObject (props : list (jsstring * jsval number)).

Arguments VUndefined {number}.
Arguments VNull {number}.
Arguments VBool {number} b.
Arguments VNumber {number} n.
Arguments VString {number} s.
Arguments VArray {number} items.
Arguments VObject {number} props.

(** Induction on a value that reaches the items of its arrays. *)
Section ValueInduction.

Variable number : Type.
Variable P : jsval number -> Prop.
Hypothesis P_array :
  forall items : list (jsval number), Forall P items -> P (VArray items).
Hypothesis P_other :
  forall v : jsval number,
    match v with
    | VArray _ => True
    | _ => P v
    end.

Fixpoint value_ind_arrays (v : jsval number) : P v :=
  match v with
  | VArray items =>
      P_array
        ((fix all (l : list (jsval number)) : Forall P l :=
            match l with
            | [] => Forall_nil P
            | x :: t => Forall_cons x (value_ind_arrays x) (all t)
            end) items)
  | VUndefined => P_other VUndefined
  | VNull => P_other VNull
  | VBool b => P_other (VBool b)
  | VNumber n => P_other (VNumber n)
  | VString s => P_other (VString s)
  | VObject props => P_other (VObject props)
  end.

End ValueInduction.

Module InfluentialPaper.
Record t (number : Type) : Type := Build {
  paperId : jsval number;
  title : jsval number;
  url : jsval number;
  venue : jsval number;
  year : jsval number;
  authors : jsstring;
  arxivId : jsval number;
  doi : jsval number;
  isInfluential : jsval number;
  citationCount : jsval number;
  intent : jsval number
}.
End InfluentialPaper.

Module CitationInfo.
Record t (number : Type) : Type := Build {
  numCitedBy : jsval number;
  numCiting : jsval number;
  influentialCitations : list (InfluentialPaper.t number);
  influentialReferences : list (InfluentialPaper.t number)
}.
End CitationInfo.

(** ** The class [ArxivApi] *)

Section ArxivApi.

(** Host facilities.  [extractArxivId] is the helper of
    [utils/urlUtils] ([None] is its [null]); [requestUrl] is the HTTP
    transport, which answers with a response or throws;
    [DOMParser_parseFromString] never throws (a malformed text gives an
    error document); [JSON_parse] throws on a text that is not JSON. *)
Variable number : Type.
Variable number_zero : number.
Variable number_truthy : number -> bool.
Variable number_toString : number -> jsstring.
Variable extractArxivId : jsstring -> option jsstring.
Variable requestUrl : Request.t -> outcome Response.t.
Variable DOMParser_parseFromString : jsstring -> document.
Variable JSON_parse : jsstring -> outcome (jsval number).

Local Abbreviation value := (jsval number).

(** *** Value operations of the language *)

Definition truthy (v : value) : bool :=
  match v with
  | VUndefined | VNull => false
  | VBool b => b
  | VNumber n => number_truthy n
  | VString s => match s with [] => false | _ :: _ => true end
  | VArray _ | VObject _ => true
  end.

Definition nullish (v : value) : bool :=
  match v with
  | VUndefined | VNull => true
  | _ => false
  end.

Fixpoint lookup (k : jsstring) (props : list (jsstring * value))
    : option value :=
  match props with
  | [] => None
  | (k', v) :: rest => if jsstring_eqb k' k then Some v else lookup k rest
  end.

(** [v.k] for the property names this class reads, none of which is a
    built-in property of arrays, strings, numbers or booleans. *)
Definition get (v : value) (k : jsstring) : result value :=
  match v with
  | VUndefined | VNull => Raise TypeError
  | VObject props =>
      match lookup k props with
      | Some x => ret x
      | None => ret VUndefined
      end
  | VBool _ | VNumber _ | VString _ | VArray _ => ret VUndefined
  end.

(** [ToString], as [Array.prototype.join] applies it to each element
    that is neither [undefined] nor [null].  An array is joined with
    commas, which converts its elements in turn.  An object goes through
    its [toString]: the one of [Object.prototype] gives
    ["[object Object]"]; an own property of that name, which in a parsed
    body is never a function, is skipped, [valueOf] gives no primitive
    either, and the conversion throws a [TypeError]. *)
Fixpoint ToString (v : value) : result jsstring :=
  match v with
  | VUndefined => ret (lit "undefined")
  | VNull => ret (lit "null")
  | VBool b => ret (if b then lit "true" else lit "false")
  | VNumber n => ret (number_toString n)
  | VString s => ret s
  | VArray items =>
      parts <-
        (fix each (l : list value) : result (list jsstring) :=
           match l with
           | [] => ret []
           | x :: t =>
               part <- match x with
                       | VUndefined | VNull => ret []
                       | _ => ToString x
                       end ;;
               rest <- each t ;;
               ret (part :: rest)
           end) items ;;
      ret (join (lit ",") parts)
  | VObject props =>
      match lookup (lit "toString") props with
      | Some _ => Raise TypeError
      | None => ret (lit "[object Object]")
      end
  end.

Definition join_element (v : value) : result jsstring :=
  if nullish v then ret [] else ToString v.

Definition array_join (sep : jsstring) (items : list value)
    : result jsstring :=
  parts <- mapM join_element items ;;
  ret (join sep parts).

(** *** formatAbstract is defined above; parseArxivResponse *)

(** The object literal that [parseArxivResponse] returns for the
    element [entry]. *)
Definition metadata_of_entry (entry : located) : ArxivMetadataType.t :=
  let inside := descendant_elements entry in
  ArxivMetadataType.Build
    (or_default
       (option_map (fun e => trim (textContent (here e)))
          (querySelector (TypeSel (lit "title")) inside))
       NO_TITLE)
    (or_default
       (option_map (fun e => textContent (here e))
          (querySelector (TypeSel (lit "id")) inside))
       [])
    (or_default
       (match querySelector (TypeSel (lit "published")) inside with
        | Some e => nth_error (split LETTER_T (textContent (here e))) 0
        | None => None
        end)
       NO_DATE)
    (join (lit ", ")
       (map (fun author => textContent (here author))
          (querySelectorAll (DescendantSel (lit "author") (lit "name"))
             inside)))
    (formatAbstract
       (or_default
          (option_map (fun e => textContent (here e))
             (querySelector (TypeSel (lit "summary")) inside))
          NO_ABSTRACT)).

Definition parseArxivResponse (xmlText : jsstring)
    : result ArxivMetadataType.t :=
  let xmlDoc := DOMParser_parseFromString xmlText in
  match querySelector (TypeSel (lit "entry")) (document_elements xmlDoc) with
  | None => Raise NotFound
  | Some entry => ret (metadata_of_entry entry)
  end.

(** *** fetchArxivMetadata *)

Definition metadataRequest (arxivId : jsstring) : Request.t :=
  let apiUrl :=
    lit "https://export.arxiv.org/api/query?id_list=" ++ arxivId in
  Request.Build apiUrl [(lit "User-Agent", lit "ObsidianArxivPlugin/1.0")].

Definition fetchArxivMetadata (url : jsstring)
    : result ArxivMetadataType.t :=
  match extractArxivId url with
  | None => Raise InvalidInput
  | Some [] => Raise InvalidInput
  | Some (c :: rest) =>
      let arxivId := c :: rest in
      response <- host (requestUrl (metadataRequest arxivId)) ;;
      if negb (Response.status response =? 200)%Z
      then Raise (UpstreamError (Response.status response))
      else parseArxivResponse (Response.text response)
  end.

(** *** getInfluentialPapers *)

Definition authors_of (paper : value) : result jsstring :=
  a <- get paper (lit "authors") ;;
  match a with
  | VUndefined | VNull => ret []
  | VArray items =>
      names <- mapM (fun author => get author (lit "name")) items ;;
      joined <- array_join (lit ", ") names ;;
      ret (or_default (Some joined) [])
  | VBool _ | VNumber _ | VString _ | VObject _ => Raise TypeError
  end.

Definition reshape (paper : value) : result (InfluentialPaper.t number) :=
  paperId <- get paper (lit "paperId") ;;
  title <- get paper (lit "title") ;;
  url <- get paper (lit "url") ;;
  venue <- get paper (lit "venue") ;;
  year <- get paper (lit "year") ;;
  authors <- authors_of paper ;;
  arxivId <- get paper (lit "arxivId") ;;
  doi <- get paper (lit "doi") ;;
  isInfluential <- get paper (lit "isInfluential") ;;
  citationCount <- get paper (lit "citationCount") ;;
  intent <- get paper (lit "intent") ;;
  ret (InfluentialPaper.Build paperId title url venue year authors
         arxivId doi isInfluential citationCount intent).

Definition getInfluentialPapers (papers : value)
    : result (list (InfluentialPaper.t number)) :=
  chain <-
    match papers with
    | VUndefined | VNull => ret None
    | VArray items =>
        kept <- filterM (fun paper =>
                   flag <- get paper (lit "isInfluential") ;;
                   ret (truthy flag)) items ;;
        shaped <- mapM reshape kept ;;
        ret (Some shaped)
    | VBool _ | VNumber _ | VString _ | VObject _ => Raise TypeError
    end ;;
  ret (match chain with
       | Some shaped => shaped
       | None => []
       end).

(** *** fetchCitationInfo *)

Definition or_zero (v : value) : value :=
  if truthy v then v else VNumber number_zero.

Definition emptyCitationInfo : CitationInfo.t number :=
  CitationInfo.Build (VNumber number_zero) (VNumber number_zero) [] [].

Definition citationRequest (arxivId : jsstring) : Request.t :=
  let semanticScholarId := lit "arXiv:" ++ arxivId in
  let url :=
    lit "https://api.semanticscholar.org/v1/paper/" ++ semanticScholarId in
  Request.Build url [].

Definition fetchCitationInfo (arxivId : jsstring)
    : result (CitationInfo.t number) :=
  returned <-
    try_catch
      (response <- host (requestUrl (citationRequest arxivId)) ;;
       if (Response.status response =? 200)%Z
       then
         data <- host (JSON_parse (Response.text response)) ;;
         cited <- get data (lit "numCitedBy") ;;
         citing <- get data (lit "numCiting") ;;
         citations <- get data (lit "citations") ;;
         influentialCitations <- getInfluentialPapers citations ;;
         references <- get data (lit "references") ;;
         influentialReferences <- getInfluentialPapers references ;;
         ret (Some (CitationInfo.Build (or_zero cited) (or_zero citing)
                      influentialCitations influentialReferences))
       else ret None)
      (fun _ => ret None) ;;
  ret (match returned with
       | Some info => info
       | None => emptyCitationInfo
       end).

(** *** Vocabulary of the statements *)

(** The failures of the citation request: the transport throws, it
    answers with a status other than 200, or it answers 200 with a body
    that [JSON.parse] rejects. *)
Inductive citation_fetch_failed (arxivId : jsstring) : Prop :=
| transport_threw (detail : jsstring) :
    requestUrl (citationRequest arxivId) = Threw detail ->
    citation_fetch_failed arxivId
| status_not_200 (response : Response.t) :
    requestUrl (citationRequest arxivId) = Answered response ->
    Response.status response <> 200%Z ->
    citation_fetch_failed arxivId
| body_not_json (response : Response.t) (detail : jsstring) :
    requestUrl (citationRequest arxivId) = Answered response ->
    Response.status response = 200%Z ->
    JSON_parse (Response.text response) = Threw detail ->
    citation_fetch_failed arxivId.

(** The citation endpoint answered 200 with a body that parses to
    [data]. *)
Definition citation_body (arxivId : jsstring) (data : value) : Prop :=
  exists response : Response.t,
    requestUrl (citationRequest arxivId) = Answered response
    /\ Response.status response = 200%Z
    /\ JSON_parse (Response.text response) = Answered data.

(** A count of the result is [0] or the truthy field [k] of the body. *)
Definition count_from_body (arxivId k : jsstring) (v : value) : Prop :=
  v = VNumber number_zero
  \/ exists data : value,
       citation_body arxivId data
       /\ get data k = Ok v
       /\ truthy v = true.

(** The field [k] of a record, [undefined] when it has none. *)
Definition field (v : value) (k : jsstring) : value :=
  match v with
  | VObject props =>
      match lookup k props with
      | Some x => x
      | None => VUndefined
      end
  | _ => VUndefined
  end.

(** A value has a text: it is not an object with an own [toString]
    property, nor an array that holds one at any depth. *)
Fixpoint printable (v : value) : bool :=
  match v with
  | VArray items =>
      forallb (fun x => match x with
                        | VUndefined | VNull => true
                        | _ => printable x
                        end) items
  | VObject props =>
      match lookup (lit "toString") props with
      | Some _ => false
      | None => true
      end
  | _ => true
  end.

(** The text of a value that has one. *)
Fixpoint rendered (v : value) : jsstring :=
  match v with
  | VUndefined => lit "undefined"
  | VNull => lit "null"
  | VBool b => if b then lit "true" else lit "false"
  | VNumber n => number_toString n
  | VString s => s
  | VArray items =>
      join (lit ",")
        (map (fun x => match x with
                       | VUndefined | VNull => []
                       | _ => rendered x
                       end) items)
  | VObject _ => lit "[object Object]"
  end.

(** The same for an element of a joined array, where [null] and
    [undefined] stand for the empty string. *)
Definition joinable (v : value) : bool :=
  if nullish v then true else printable v.

Definition rendered_element (v : value) : jsstring :=
  if nullish v then [] else rendered v.

(** The authors of a list are there and their names have a text. *)
Definition authors_joinable (items : list value) : bool :=
  forallb (fun author => negb (nullish author)) items
  && forallb joinable (map (fun author => field author (lit "name")) items).

(** A raw paper record: a value that is there (not [null], not
    [undefined]) and whose [authors], when present, is a list of authors
    that are there and whose names have a text (a string, a number, an
    absent name; not an object that hides [toString]). *)
Definition is_paper_record (paper : value) : bool :=
  negb (nullish paper)
  && match field paper (lit "authors") with
     | VUndefined | VNull => true
     | VArray items => authors_joinable items
     | _ => false
     end.

(** The author names of a record joined with a comma and a space, the
    empty string when the record has no author list. *)
Definition author_names (paper : value) : jsstring :=
  match field paper (lit "authors") with
  | VArray items =>
      join (lit ", ")
        (map (fun author => rendered_element (field author (lit "name")))
           items)
  | _ => []
  end.

Definition as_influential_paper (paper : value) : InfluentialPaper.t number :=
  InfluentialPaper.Build
    (field paper (lit "paperId")) (field paper (lit "title"))
    (field paper (lit "url")) (field paper (lit "venue"))
    (field paper (lit "year")) (author_names paper)
    (field paper (lit "arxivId")) (field paper (lit "doi"))
    (field paper (lit "isInfluential")) (field paper (lit "citationCount"))
    (field paper (lit "intent")).

Definition flagged_influential (paper : value) : bool :=
  truthy (field paper (lit "isInfluential")).

(** The metadata endpoint answered the query for [url] with status 200
    and a feed whose first [entry] element is [entry]. *)
Definition feed_entry (url : jsstring) (entry : located) : Prop :=
  exists (arxivId : jsstring) (response : Response.t),
    extractArxivId url = Some arxivId
    /\ arxivId <> []
    /\ requestUrl (metadataRequest arxivId) = Answered response
    /\ Response.status response = 200%Z
    /\ querySelector (TypeSel (lit "entry"))
         (document_elements
            (DOMParser_parseFromString (Response.text response)))
       = Some entry.

(** The identifier extraction gave nothing to query with: [null] or the
    empty string. *)
Definition no_identifier (r : option jsstring) : Prop :=
  r = None \/ r = Some [].

End ArxivApi.

Arguments is_paper_record {number} paper.
Arguments printable {number} v.
Arguments joinable {number} v.
Arguments authors_joinable {number} items.

(** The part of a string before the first occurrence of [sep]. *)
Fixpoint before_first (sep : code_unit) (s : jsstring) : jsstring :=
  match s with
  | [] => []
  | c :: t => if (c =? sep)%N then [] else c :: before_first sep t
  end.


(** ** A sample host

    Closed examples run the class on a host whose numbers are the integers
    and whose parsers know the sample texts below. *)

Definition integer_truthy (z : Z) : bool := negb (z =? 0)%Z.

Definition integer_toString (z : Z) : jsstring :=
  lit (NilZero.string_of_int (Z.to_int z)).

Definition quoted (s : jsstring) : jsstring := [34%N] ++ s ++ [34%N].

(** The text of a document with no markup characters in its text nodes. *)
Fixpoint serialize (n : node) : jsstring :=
  match n with
  | TextNode d => d
  | Element nm cs =>
      lit "<" ++ nm ++ lit ">" ++ concat (map serialize cs)
      ++ lit "</" ++ nm ++ lit ">"
  end.

Definition leaf (nm : string) (content : jsstring) : node :=
  Element (lit nm) [TextNode content].

Definition sample_url : jsstring := lit "https://arxiv.org/abs/2404.16260".
Definition sample_id : jsstring := lit "2404.16260".

Definition sample_extractArxivId (url : jsstring) : option jsstring :=
  if jsstring_eqb url sample_url then Some sample_id else None.

(** A feed with one entry that has every element: the summary has a run
    of spaces inside, the identifier sits on a line of its own. *)
Definition sample_summary : jsstring :=
  lit "  We study   graphs.  ".

Definition sample_link : jsstring :=
  [LF] ++ lit "    http://arxiv.org/abs/2404.16260v1" ++ [LF] ++ lit "  ".

Definition sample_entry : node :=
  Element (lit "entry")
    [ leaf "id" sample_link;
      leaf "published" (lit "2024-04-25T00:14:29Z");
      leaf "title" (lit " On Graphs ");
      leaf "summary" sample_summary;
      Element (lit "author") [leaf "name" (lit "Ada Kim")];
      Element (lit "author") [leaf "name" (lit "Bo Lee")] ].

Definition sample_feed : document :=
  [ Element (lit "feed") [leaf "title" (lit "ArXiv Query"); sample_entry] ].

(** An entry that has none of the optional elements. *)
Definition bare_feed : document :=
  [ Element (lit "feed") [Element (lit "entry") []] ].

Definition feed_text (doc : document) : jsstring :=
  concat (map serialize doc).

Definition sample_parseFromString (xmlText : jsstring) : document :=
  if jsstring_eqb xmlText (feed_text sample_feed) then sample_feed
  else if jsstring_eqb xmlText (feed_text bare_feed) then bare_feed
  else [Element (lit "parsererror") []].

Definition answer_with (status : Z) (body : jsstring)
    : Request.t -> outcome Response.t :=
  fun _ => Answered (Response.Build status body).

Definition unreachable_host : Request.t -> outcome Response.t :=
  fun _ => Threw (lit "net::ERR_CONNECTION_REFUSED").

(** Citation bodies and their parses. *)
Definition counts_body : jsstring :=
  lit "{" ++ quoted (lit "numCitedBy") ++ lit ":12," ++
  quoted (lit "numCiting") ++ lit ":3}".

Definition counts_data : jsval Z :=
  VObject [(lit "numCitedBy", VNumber 12%Z); (lit "numCiting", VNumber 3%Z)].

Definition negative_body : jsstring :=
  lit "{" ++ quoted (lit "numCitedBy") ++ lit ":-5}".

Definition negative_data : jsval Z :=
  VObject [(lit "numCitedBy", VNumber (-5)%Z)].

Definition sample_JSON_parse (text : jsstring) : outcome (jsval Z) :=
  if jsstring_eqb text counts_body then Answered counts_data
  else if jsstring_eqb text negative_body then Answered negative_data
  else Threw (lit "SyntaxError").

(** Three raw paper records, the second of them flagged influential. *)
Definition sample_paper (id : string) (influential : bool)
    (names : list string) : jsval Z :=
  VObject
    [ (lit "paperId", VString (lit id));
      (lit "title", VString (lit "A paper"));
      (lit "authors",
        VArray (map (fun n => VObject [(lit "name", VString (lit n))]) names));
      (lit "isInfluential", VBool influential);
      (lit "citationCount", VNumber 7%Z) ].

Definition sample_papers : list (jsval Z) :=
  [ sample_paper "p1" false ["Ann"%string];
    sample_paper "p2" true ["Cy"%string; "Di"%string];
    sample_paper "p3" false [] ].

Definition sample_located_entry : located :=
  Located sample_entry [lit "feed"].

Definition sample_child (n : node) : located :=
  Located n [lit "entry"; lit "feed"].

Definition bare_located_entry : located :=
  Located (Element (lit "entry") []) [lit "feed"].

Definition influential_p2 : InfluentialPaper.t Z :=
  InfluentialPaper.Build
    (VString (lit "p2")) (VString (lit "A paper")) VUndefined VUndefined
    VUndefined (lit "Cy, Di") VUndefined VUndefined (VBool true)
    (VNumber 7%Z) VUndefined.

(** ** Words and normal form of an abstract

    The words of a string are its maximal runs of code units that are not
    whitespace, in order. *)

Definition starts_word (s : jsstring) : bool :=
  match s with
  | c :: _ => negb (is_whitespace c)
  | [] => false
  end.

(** [c] in front of the words of the rest: it extends the first word when
    the rest starts inside a word, and is a word of its own otherwise. *)
Definition push_unit (c : code_unit) (inside : bool) (ws : list jsstring)
    : list jsstring :=
  match inside, ws with
  | true, w :: rest => (c :: w) :: rest
  | _, _ => [c] :: ws
  end.

Fixpoint words (s : jsstring) : list jsstring :=
  match s with
  | [] => []
  | c :: t =>
      if is_whitespace c then words t
      else push_unit c (starts_word t) (words t)
  end.

(** Every whitespace code unit is a space, and what follows it, if
    anything, is not whitespace. *)
Fixpoint single_spaced (s : jsstring) : bool :=
  match s with
  | [] => true
  | c :: t =>
      (if is_whitespace c then (c =? SPACE)%N && no_leading_ws t else true)
      && single_spaced t
  end.

Definition normalized (s : jsstring) : bool :=
  trimmed s && single_spaced s.

Definition not_whitespace (c : code_unit) : bool := negb (is_whitespace c).

(** A feed whose entry has a blank title and a blank summary. *)
Definition blank_summary : jsstring := lit "  " ++ [LF] ++ lit " ".

Definition blank_entry : node :=
  Element (lit "entry")
    [ leaf "title" (lit "   ");
      leaf "summary" blank_summary ].

Definition blank_feed : document := [ Element (lit "feed") [blank_entry] ].

Definition blank_located_entry : located := Located blank_entry [lit "feed"].

Definition blank_parseFromString (xmlText : jsstring) : document :=
  if jsstring_eqb xmlText (feed_text blank_feed) then blank_feed
  else [Element (lit "parsererror") []].

(** ** Vocabulary for the citation body

    What the code needs of a body to return its content rather than the
    zero record. *)

Section CitationVocabulary.

Variable number : Type.
Variable number_zero : number.
Variable number_truthy : number -> bool.
Variable number_toString : number -> jsstring.

Local Abbreviation value := (jsval number).

(** The [authors] of a record can be mapped over and joined: absent,
    [null], or a list without [null] or [undefined] entries whose names
    have a text. *)
Definition authors_readable (paper : value) : bool :=
  match field paper (lit "authors") with
  | VUndefined | VNull => true
  | VArray items => authors_joinable items
  | _ => false
  end.

(** A list entry the filter gets through: it is there, and if it is
    flagged influential its authors are readable. *)
Definition record_usable (paper : value) : bool :=
  negb (nullish paper)
  && (negb (flagged_influential number_truthy paper)
      || authors_readable paper).

Definition list_usable (papers : value) : bool :=
  match papers with
  | VUndefined | VNull => true
  | VArray items => forallb record_usable items
  | _ => false
  end.

Definition influential_of (papers : value)
    : list (InfluentialPaper.t number) :=
  match papers with
  | VArray items =>
      map (as_influential_paper number_toString)
        (filter (flagged_influential number_truthy) items)
  | _ => []
  end.

Definition body_usable (data : value) : bool :=
  negb (nullish data)
  && list_usable (field data (lit "citations"))
  && list_usable (field data (lit "references")).

Definition citation_info_of (data : value) : CitationInfo.t number :=
  CitationInfo.Build
    (or_zero number_zero number_truthy (field data (lit "numCitedBy")))
    (or_zero number_zero number_truthy (field data (lit "numCiting")))
    (influential_of (field data (lit "citations")))
    (influential_of (field data (lit "references"))).

Definition items_of (papers : value) : list value :=
  match papers with
  | VArray items => items
  | _ => []
  end.

End CitationVocabulary.

Arguments authors_readable {number} paper.

(** Citation bodies with paper lists. *)
Definition papers_body : jsstring :=
  lit "{" ++ quoted (lit "numCitedBy") ++ lit ":2," ++
  quoted (lit "citations") ++ lit ":[{" ++
  quoted (lit "paperId") ++ lit ":" ++ quoted (lit "p2") ++ lit "," ++
  quoted (lit "isInfluential") ++ lit ":true," ++
  quoted (lit "authors") ++ lit ":[{" ++
  quoted (lit "name") ++ lit ":" ++ quoted (lit "Cy") ++ lit "}]}]}".

Definition papers_data : jsval Z :=
  VObject
    [ (lit "numCitedBy", VNumber 2%Z);
      (lit "citations",
        VArray
          [ VObject
              [ (lit "paperId", VString (lit "p2"));
                (lit "isInfluential", VBool true);
                (lit "authors",
                  VArray [VObject [(lit "name", VString (lit "Cy"))]]) ] ]) ].

Definition broken_body : jsstring :=
  lit "{" ++ quoted (lit "numCitedBy") ++ lit ":12," ++
  quoted (lit "citations") ++ lit ":[null]}".

Definition broken_data : jsval Z :=
  VObject
    [ (lit "numCitedBy", VNumber 12%Z);
      (lit "citations", VArray [VNull]) ].

Definition papers_JSON_parse (text : jsstring) : outcome (jsval Z) :=
  if jsstring_eqb text papers_body then Answered papers_data
  else if jsstring_eqb text broken_body then Answered broken_data
  else Threw (lit "SyntaxError").

(** ** The command [get-text-from-pdf] of the plugin

    The callback of [onload]'s command works on the vault of the host and
    shows notices.  A run is a state transformer over the vault and the
    trace of what was shown and logged; the calls into the host are
    section variables, a write giving back the vault it leaves whether it
    answers or throws.  The run is taken on its own, with no other
    callback between its awaits. *)

Inductive event : Type :=
| Notice (message : jsstring)
| ConsoleLog (label text : jsstring)
| ConsoleError (label : jsstring) (e : error).

Definition is_notice (ev : event) : bool :=
  match ev with
  | Notice _ => true
  | _ => false
  end.

Definition PDF_PATH : jsstring := lit "2404.16260v1.pdf".
Definition NEW_FILE_NAME : jsstring := lit "2404.16260v1-extracted.md".

Definition MSG_PDF_NOT_FOUND : jsstring :=
  [80; 68; 70; 32; 54028; 51068; 51012; 32; 52286; 51012; 32; 49688; 32;
   50630; 49845; 45768; 45796; 46]%N.
Definition MSG_UPDATED : jsstring :=
  [44592; 51316; 32; 54028; 51068; 51060; 32; 50629; 45936; 51060; 53944;
   46104; 50632; 49845; 45768; 45796; 46]%N.
Definition MSG_CREATED : jsstring :=
  [49352; 32; 54028; 51068; 51060; 32; 49373; 49457; 46104; 50632; 49845;
   45768; 45796; 46]%N.
Definition MSG_INVALID_FILE : jsstring :=
  [50976; 54952; 54616; 51648; 32; 50506; 51008; 32; 54028; 51068; 51077;
   45768; 45796; 46]%N.
Definition MSG_PDF_ERROR : jsstring :=
  [80; 68; 70; 32; 52376; 47532; 32; 51473; 32; 50724; 47448; 44032; 32;
   48156; 49373; 54664; 49845; 45768; 45796; 46]%N.
Definition LOG_LABEL : jsstring :=
  [52628; 52636; 46108; 32; 53581; 49828; 53944; 58]%N.
Definition ERROR_LABEL : jsstring :=
  [80; 68; 70; 32; 52376; 47532; 32; 50724; 47448; 58]%N.

Declare Scope command_scope.
Delimit Scope command_scope with command.

Section PdfCommand.

Variable vault : Type.
Variable file : Type.
Variable bytes : Type.
Variable is_TFile : file -> bool.
Variable getAbstractFileByPath : vault -> jsstring -> option file.
Variable readBinary : vault -> file -> outcome bytes.
Variable extractTextFromPDF : bytes -> outcome jsstring.
Variable modify : vault -> file -> jsstring -> vault * outcome unit.
Variable create : vault -> jsstring -> jsstring -> vault * outcome unit.

Definition world : Type := (vault * list event)%type.

Definition command (A : Type) : Type := world -> world * result A.

Definition command_ret {A : Type} (a : A) : command A :=
  fun w => (w, Ok a).

Definition command_bind {A B : Type} (m : command A) (k : A -> command B)
    : command B :=
  fun w =>
    match m w with
    | (w', Ok a) => k a w'
    | (w', Raise e) => (w', Raise e)
    end.

Definition command_try {A : Type} (body : command A)
    (handler : error -> command A) : command A :=
  fun w =>
    match body w with
    | (w', Ok a) => (w', Ok a)
    | (w', Raise e) => handler e w'
    end.

Notation "x <- m ;; k" := (command_bind m (fun x => k))
  (at level 61, m at next level, right associativity) : command_scope.
Local Open Scope command_scope.

Definition emit (ev : event) : command unit :=
  fun w => ((fst w, snd w ++ [ev]), Ok tt).

Definition vault_lookup (path : jsstring) : command (option file) :=
  fun w => (w, Ok (getAbstractFileByPath (fst w) path)).

Definition vault_readBinary (f : file) : command bytes :=
  fun w => (w, host (readBinary (fst w) f)).

Definition pdf_extract (buffer : bytes) : command jsstring :=
  fun w => (w, host (extractTextFromPDF buffer)).

Definition vault_modify (f : file) (data : jsstring) : command unit :=
  fun w =>
    let (v, o) := modify (fst w) f data in ((v, snd w), host o).

Definition vault_create (path data : jsstring) : command unit :=
  fun w =>
    let (v, o) := create (fst w) path data in ((v, snd w), host o).

Definition getTextFromPdf : command unit :=
  command_try
    (let filePath := PDF_PATH in
     file <- vault_lookup filePath ;;
     match file with
     | None => emit (Notice MSG_PDF_NOT_FOUND)
     | Some file =>
         if is_TFile file then
           arrayBuffer <- vault_readBinary file ;;
           extractedText <- pdf_extract arrayBuffer ;;
           let newFileName := NEW_FILE_NAME in
           existingFile <- vault_lookup newFileName ;;
           _ <- match existingFile with
                | Some existing =>
                    _ <- vault_modify existing extractedText ;;
                    emit (Notice MSG_UPDATED)
                | None =>
                    _ <- vault_create newFileName extractedText ;;
                    emit (Notice MSG_CREATED)
                end ;;
           emit (ConsoleLog LOG_LABEL extractedText)
         else emit (Notice MSG_INVALID_FILE)
     end)
    (fun error =>
       _ <- emit (Notice MSG_PDF_ERROR) ;;
       emit (ConsoleError ERROR_LABEL error)).

(** One run from a vault, with nothing shown yet. *)
Definition run_getTextFromPdf (v : vault) : world * result unit :=
  getTextFromPdf (v, []).

(** The text of the PDF was obtained: the path names a file, its bytes
    were read and the extraction answered. *)
Definition pdf_text (v : vault) (text : jsstring) : Prop :=
  exists (f : file) (buffer : bytes),
    getAbstractFileByPath v PDF_PATH = Some f
    /\ is_TFile f = true
    /\ readBinary v f = Answered buffer
    /\ extractTextFromPDF buffer = Answered text.

End PdfCommand.

(** A vault of files by path, for closed examples: every entry is a file,
    reading gives its content, the extraction is the identity. *)
Definition sample_vault : Type := list (jsstring * jsstring).

Fixpoint sample_find (v : sample_vault) (path : jsstring) : option jsstring :=
  match v with
  | [] => None
  | (p, _) :: rest => if jsstring_eqb p path then Some p else sample_find rest path
  end.

Fixpoint sample_content (v : sample_vault) (path : jsstring) : outcome jsstring :=
  match v with
  | [] => Threw (lit "ENOENT")
  | (p, c) :: rest =>
      if jsstring_eqb p path then Answered c else sample_content rest path
  end.

Fixpoint sample_modify (v : sample_vault) (path data : jsstring)
    : sample_vault :=
  match v with
  | [] => []
  | (p, c) :: rest =>
      if jsstring_eqb p path then (p, data) :: rest
      else (p, c) :: sample_modify rest path data
  end.

Definition sample_run (v : sample_vault) : world sample_vault * result unit :=
  run_getTextFromPdf (fun _ : jsstring => true) sample_find sample_content
    (fun b : jsstring => Answered b)
    (fun v f data => (sample_modify v f data, Answered tt))
    (fun v path data => (v ++ [(path, data)], Answered tt))
    v.

(** ** The settings of the plugin

    A settings object is the list of its own properties.  [loadData] and
    [saveData] are the host's; [store] is what the host keeps. *)

Definition MY_SETTING : jsstring := lit "mySetting".
Definition PROTO_KEY : jsstring := lit "__proto__".

Section Settings.

Variable number : Type.
Variable store : Type.
Variable loadData : store -> outcome (jsval number).
Variable saveData : store -> jsval number -> store * outcome unit.

Local Abbreviation value := (jsval number).

Definition plain_object : Type := list (jsstring * value).

Definition DEFAULT_SETTINGS : plain_object :=
  [(MY_SETTING, VString (lit "default"))].

(** [obj[k] = v] on a plain object: the property is overwritten in place
    or added at the end. *)
Fixpoint put (k : jsstring) (v : value) (obj : plain_object) : plain_object :=
  match obj with
  | [] => [(k, v)]
  | (k', v') :: rest =>
      if jsstring_eqb k' k then (k', v) :: rest
      else (k', v') :: put k v rest
  end.

(** The assignment that [Object.assign] makes: the key [__proto__] goes to
    the setter of the prototype and leaves the own properties alone. *)
Definition set_property (k : jsstring) (v : value) (obj : plain_object)
    : plain_object :=
  if jsstring_eqb k PROTO_KEY then obj else put k v obj.

Definition index_key (i : nat) : jsstring :=
  lit (NilZero.string_of_uint (Nat.to_uint i)).

Fixpoint indexed {A : Type} (f : A -> value) (i : nat) (l : list A)
    : plain_object :=
  match l with
  | [] => []
  | x :: t => (index_key i, f x) :: indexed f (S i) t
  end.

(** The own enumerable properties of a source of [Object.assign]: those of
    an object, the indexed units of a string, the indexed items of an
    array, none for a number or a boolean. *)
Definition own_enumerable (source : value) : plain_object :=
  match source with
  | VObject props => props
  | VString s => indexed (fun c => VString [c]) 0 s
  | VArray items => indexed (fun x => x) 0 items
  | _ => []
  end.

Definition assign_from (target : plain_object) (source : value)
    : plain_object :=
  if nullish source then target
  else fold_left (fun obj kv => set_property (fst kv) (snd kv) obj)
         (own_enumerable source) target.

Definition Object_assign (target : plain_object) (sources : list value)
    : plain_object :=
  fold_left assign_from sources target.

Definition loadSettings (st : store) : result plain_object :=
  data <- host (loadData st) ;;
  ret (Object_assign [] [VObject DEFAULT_SETTINGS; data]).

Definition saveSettings (st : store) (settings : plain_object)
    : store * result unit :=
  let (st', o) := saveData st (VObject settings) in (st', host o).

(** The [onChange] handler of the settings tab: it sets the property on
    the settings object of the plugin, then saves. *)
Definition onChange (value : jsstring) (st : store) (settings : plain_object)
    : store * plain_object * result unit :=
  let settings' := put MY_SETTING (VString value) settings in
  let (st', r) := saveSettings st settings' in
  (st', settings', r).

(** The keys of an object are distinct, as [JSON.parse] leaves them. *)
Definition unique_keys (v : value) : Prop :=
  match v with
  | VObject props => NoDup (map fst props)
  | _ => True
  end.

(** The stored value of [mySetting], or the default. *)
Definition stored_or_default (data : value) : value :=
  match data with
  | VObject props =>
      match lookup MY_SETTING props with
      | Some v => v
      | None => VString (lit "default")
      end
  | _ => VString (lit "default")
  end.

End Settings.

(** A store that keeps the last value saved, [null] before any. *)
Definition sample_store : Type := option (jsval Z).

Definition sample_loadData (st : sample_store) : outcome (jsval Z) :=
  match st with
  | Some v => Answered v
  | None => Answered VNull
  end.

Definition sample_saveData (st : sample_store) (v : jsval Z)
    : sample_store * outcome unit :=
  (Some v, Answered tt).

(** The record of the sample feed, the paper of [papers_data], a vault
    that holds the PDF only, and stored settings. *)
Definition sample_record : ArxivMetadataType.t :=
  ArxivMetadataType.Build
    (lit "On Graphs") sample_link (lit "2024-04-25")
    (lit "Ada Kim, Bo Lee") (lit "We study graphs.").

Definition papers_p2 : InfluentialPaper.t Z :=
  InfluentialPaper.Build
    (VString (lit "p2")) VUndefined VUndefined VUndefined VUndefined
    (lit "Cy") VUndefined VUndefined (VBool true) VUndefined VUndefined.

Definition pdf_only_vault : sample_vault := [(PDF_PATH, lit "Hello PDF")].

Definition sample_pdf_text : sample_vault -> jsstring -> Prop :=
  pdf_text (fun _ : jsstring => true) sample_find sample_content
    (fun b : jsstring => Answered b).

Definition stored_settings : jsval Z :=
  VObject
    [ (MY_SETTING, VString (lit "abc"));
      (lit "theme", VString (lit "dark")) ].

(** A record whose author name is an object with an own [toString]
    property, and a body that cites it. *)
Definition hidden_name_paper : jsval Z :=
  VObject
    [ (lit "isInfluential", VBool true);
      (lit "authors",
        VArray
          [ VObject
              [(lit "name", VObject [(lit "toString", VNumber 1%Z)])] ]) ].

Definition hidden_name_body : jsstring :=
  lit "{" ++ quoted (lit "numCitedBy") ++ lit ":12," ++
  quoted (lit "citations") ++ lit ":[{" ++
  quoted (lit "isInfluential") ++ lit ":true," ++
  quoted (lit "authors") ++ lit ":[{" ++
  quoted (lit "name") ++ lit ":{" ++
  quoted (lit "toString") ++ lit ":1}}]}]}".

Definition hidden_name_data : jsval Z :=
  VObject
    [ (lit "numCitedBy", VNumber 12%Z);
      (lit "citations", VArray [hidden_name_paper]) ].

Definition hidden_name_JSON_parse (text : jsstring) : outcome (jsval Z) :=
  if jsstring_eqb text hidden_name_body then Answered hidden_name_data
  else Threw (lit "SyntaxError").

(* ===================================================================== *)
(** * Part II: properties *)
(* ===================================================================== *)

Unset Implicit Arguments.

(** ** Strings: trimming *)

Lemma trimStart_no_leading_ws (s : jsstring) :
  no_leading_ws (trimStart s) = true.
Proof.
  induction s as [|c t IH]; simpl; [reflexivity|].
  destruct (is_whitespace c) eqn:E; [exact IH|].
  simpl. now rewrite E.
Qed.

Lemma trimStart_fixed (s : jsstring) :
  no_leading_ws s = true -> trimStart s = s.
Proof.
  destruct s as [|c t]; simpl; [reflexivity|].
  now destruct (is_whitespace c).
Qed.

Lemma trimEnd_cons_non_ws (c : code_unit) (t : jsstring) :
  is_whitespace c = false -> exists u, trimEnd (c :: t) = c :: u.
Proof.
  intros E. simpl. destruct (trimEnd t) as [|x u].
  - rewrite E. now exists [].
  - now exists (x :: u).
Qed.

Lemma trimEnd_no_leading_ws (s : jsstring) :
  no_leading_ws s = true -> no_leading_ws (trimEnd s) = true.
Proof.
  destruct s as [|c t]; [reflexivity|].
  simpl no_leading_ws at 1. intros E.
  apply negb_true_iff in E.
  destruct (trimEnd_cons_non_ws c t E) as [u ->].
  simpl. now rewrite E.
Qed.

Lemma trimEnd_no_trailing_ws (s : jsstring) :
  no_trailing_ws (trimEnd s) = true.
Proof.
  induction s as [|c t IH]; simpl; [reflexivity|].
  destruct (trimEnd t) as [|x u].
  - destruct (is_whitespace c) eqn:E; simpl; [reflexivity|now rewrite E].
  - exact IH.
Qed.

Lemma trimEnd_fixed (s : jsstring) :
  no_trailing_ws s = true -> trimEnd s = s.
Proof.
  induction s as [|c t IH]; [reflexivity|].
  destruct t as [|c' t'].
  - simpl. intros E. apply negb_true_iff in E. now rewrite E.
  - intros E. change (no_trailing_ws (c' :: t') = true) in E.
    specialize (IH E).
    change (trimEnd (c :: c' :: t'))
      with (match trimEnd (c' :: t') with
            | [] => if is_whitespace c then [] else [c]
            | x :: u => c :: x :: u
            end).
    now rewrite IH.
Qed.

Lemma trim_trimmed (s : jsstring) : trimmed (trim s) = true.
Proof.
  unfold trimmed, trim. apply andb_true_intro. split.
  - apply trimEnd_no_leading_ws, trimStart_no_leading_ws.
  - apply trimEnd_no_trailing_ws.
Qed.

Lemma trim_fixed (s : jsstring) : trimmed s = true -> trim s = s.
Proof.
  unfold trimmed, trim. intros H. apply andb_prop in H as [H1 H2].
  rewrite (trimStart_fixed s H1). now apply trimEnd_fixed.
Qed.

(** ** Strings: replacing runs *)

Lemma newline_is_whitespace (c : code_unit) :
  is_newline c = true -> is_whitespace c = true.
Proof.
  unfold is_newline. intros E. apply N.eqb_eq in E. now subst c.
Qed.

Lemma newline_runs_absorbed (s : jsstring) :
  forall bn bw : bool,
    (bn = true -> bw = true) ->
    replace_runs_from is_whitespace [SPACE] bw
      (replace_runs_from is_newline [LF] bn s)
    = replace_runs_from is_whitespace [SPACE] bw s.
Proof.
  induction s as [|c t IH]; intros bn bw Hb; simpl; [reflexivity|].
  destruct (is_newline c) eqn:En.
  - rewrite (newline_is_whitespace c En).
    destruct bn; simpl.
    + rewrite (Hb eq_refl). simpl. now apply IH.
    + change (is_whitespace LF) with true. cbv iota.
      f_equal. now apply IH.
  - simpl. destruct (is_whitespace c).
    + f_equal. now apply IH.
    + f_equal. apply IH. discriminate.
Qed.

Lemma whitespace_runs_units (s : jsstring) :
  forall (b : bool) (x : code_unit),
    In x (replace_runs_from is_whitespace [SPACE] b s) ->
    x = SPACE \/ is_whitespace x = false.
Proof.
  induction s as [|c t IH]; intros b x; simpl; [tauto|].
  destruct (is_whitespace c) eqn:E.
  - destruct b; simpl.
    + apply IH.
    + intros [<-|H]; [now left|]. now apply IH in H.
  - simpl. intros [<-|H]; [now right|]. now apply IH in H.
Qed.

Lemma whitespace_runs_no_newline (s : jsstring) (b : bool) :
  ~ In LF (replace_runs_from is_whitespace [SPACE] b s).
Proof.
  intros H. apply whitespace_runs_units in H as [H|H]; discriminate.
Qed.

Lemma split_without_separator (sep : code_unit) (s : jsstring) :
  ~ In sep s -> split sep s = [s].
Proof.
  induction s as [|c t IH]; intros H; simpl; [reflexivity|].
  destruct (N.eqb_spec c sep) as [->|Hne].
  - exfalso. apply H. now left.
  - rewrite IH; [reflexivity|]. intros Hin. apply H. now right.
Qed.

Lemma no_trailing_ws_app (pre u : jsstring) :
  u <> [] -> no_trailing_ws (pre ++ u) = no_trailing_ws u.
Proof.
  intros Hu. induction pre as [|x pre IH]; [reflexivity|].
  simpl app. destruct (pre ++ u) as [|y w] eqn:E.
  - destruct pre; simpl in E; [contradiction|discriminate].
  - exact IH.
Qed.

Lemma whitespace_runs_keep_end (t : jsstring) :
  t <> [] -> no_trailing_ws t = true ->
  forall b : bool,
    replace_runs_from is_whitespace [SPACE] b t <> []
    /\ no_trailing_ws (replace_runs_from is_whitespace [SPACE] b t) = true.
Proof.
  induction t as [|c t IH]; intros Hne Hend b; [contradiction|].
  destruct t as [|c' t'].
  - simpl in Hend. apply negb_true_iff in Hend. simpl. rewrite Hend.
    split; [discriminate|]. simpl. now rewrite Hend.
  - change (no_trailing_ws (c' :: t') = true) in Hend.
    assert (Hne' : c' :: t' <> []) by discriminate.
    specialize (IH Hne' Hend).
    change (replace_runs_from is_whitespace [SPACE] b (c :: c' :: t'))
      with (if is_whitespace c
            then (if b then [] else [SPACE])
                 ++ replace_runs_from is_whitespace [SPACE] true (c' :: t')
            else [c]
                 ++ replace_runs_from is_whitespace [SPACE] false (c' :: t')).
    destruct (is_whitespace c).
    + destruct (IH true) as [H1 H2]. split.
      * destruct b; simpl; [exact H1|discriminate].
      * now rewrite no_trailing_ws_app.
    + destruct (IH false) as [H1 H2]. split.
      * discriminate.
      * now rewrite no_trailing_ws_app.
Qed.

Lemma whitespace_runs_trimmed (t : jsstring) :
  trimmed t = true ->
  trimmed (replace_runs is_whitespace [SPACE] t) = true.
Proof.
  unfold trimmed, replace_runs. intros H. apply andb_prop in H as [H1 H2].
  destruct t as [|c t']; [reflexivity|].
  apply andb_true_intro. split.
  - simpl in H1. apply negb_true_iff in H1. simpl. rewrite H1.
    simpl. now rewrite H1.
  - apply whitespace_runs_keep_end; [discriminate|exact H2].
Qed.

Lemma whitespace_runs_idem (t : jsstring) :
  (forall b : bool,
     replace_runs_from is_whitespace [SPACE] false
       (replace_runs_from is_whitespace [SPACE] b t)
     = replace_runs_from is_whitespace [SPACE] b t)
  /\ replace_runs_from is_whitespace [SPACE] true
       (replace_runs_from is_whitespace [SPACE] true t)
     = replace_runs_from is_whitespace [SPACE] true t.
Proof.
  induction t as [|c t [IH1 IH2]]; [split; [intros b|]; reflexivity|].
  split; [intros b|]; simpl; destruct (is_whitespace c) eqn:E.
  - destruct b; simpl.
    + apply IH1.
    + change (is_whitespace SPACE) with true. cbv iota. simpl.
      f_equal. exact IH2.
  - simpl. rewrite E. f_equal. apply IH1.
  - simpl. exact IH2.
  - simpl. rewrite E. f_equal. apply IH1.
Qed.

(** The scan of [replace_runs] against the run decomposition. *)

(** [group_runs] cuts the string into pieces that give it back, each piece
    not empty and of one kind, neighbours of different kinds: the pieces
    are the maximal runs. *)
Lemma group_runs_concat (p : code_unit -> bool) (s : jsstring) :
  concat (map snd (group_runs p s)) = s.
Proof.
  induction s as [|c t IH]; simpl; [reflexivity|].
  destruct (group_runs p t) as [|[b run] rest]; simpl in *.
  - now subst t.
  - destruct (Bool.eqb b (p c)); simpl; now rewrite IH.
Qed.

Lemma group_runs_uniform (p : code_unit -> bool) (s : jsstring) :
  Forall (fun g => snd g <> [] /\ Forall (fun c => p c = fst g) (snd g))
    (group_runs p s).
Proof.
  induction s as [|c t IH]; simpl; [constructor|].
  destruct (group_runs p t) as [|[b run] rest].
  - constructor; [|constructor]. simpl. split; [discriminate|].
    now constructor.
  - destruct (Bool.eqb b (p c)) eqn:E.
    + apply eqb_prop in E. inversion IH as [|g l [Hne Hall] Hrest]; subst.
      constructor; [|exact Hrest]. simpl in *. split; [discriminate|].
      constructor; [now symmetry|exact Hall].
    + constructor; [|exact IH]. simpl. split; [discriminate|].
      now constructor.
Qed.

Lemma group_runs_alternating (p : code_unit -> bool) (s : jsstring) :
  alternating (group_runs p s) = true.
Proof.
  induction s as [|c t IH]; simpl; [reflexivity|].
  destruct (group_runs p t) as [|[b run] rest]; [reflexivity|].
  destruct (Bool.eqb b (p c)) eqn:E.
  - exact IH.
  - change (negb (Bool.eqb (p c) b) && alternating ((b, run) :: rest) = true).
    rewrite IH, andb_true_r.
    destruct (p c), b; simpl in *; congruence.
Qed.

Lemma whitespace_runs_grouped (s : jsstring) :
  replace_runs_from is_whitespace [SPACE] false s
  = concat (map render_run (group_runs is_whitespace s))
  /\ replace_runs_from is_whitespace [SPACE] true s
     = concat (map render_run (drop_ws_head (group_runs is_whitespace s))).
Proof.
  induction s as [|c t [IH1 IH2]]; [split; reflexivity|].
  simpl. rewrite IH1, IH2.
  destruct (group_runs is_whitespace t) as [|[bt run] rest].
  - destruct (is_whitespace c); split; reflexivity.
  - destruct (is_whitespace c), bt; split; reflexivity.
Qed.

(** ** formatAbstract *)

Lemma formatAbstract_collapses (s : jsstring) :
  formatAbstract s = replace_runs is_whitespace [SPACE] (trim s).
Proof.
  unfold formatAbstract, replace_runs.
  rewrite newline_runs_absorbed by discriminate.
  rewrite split_without_separator by apply whitespace_runs_no_newline.
  simpl. apply trim_fixed.
  apply (whitespace_runs_trimmed (trim s)), trim_trimmed.
Qed.

(** C3.  The paragraph structure the normaliser is written to produce is
    lost: on a two-paragraph abstract whose paragraphs are separated by a
    newline, the result is one line with a space where the newline was,
    not the two paragraphs separated by a blank line. *)
Theorem formatAbstract_paragraphs_lost :
  formatAbstract (lit "First." ++ [LF] ++ lit "Second.")
  = lit "First. Second."
  /\ formatAbstract (lit "First." ++ [LF] ++ lit "Second.")
     <> lit "First." ++ [LF; LF] ++ lit "Second.".
Proof.
  split; [reflexivity|discriminate].
Qed.

(** C4.  The result of [formatAbstract] holds no newline and is the
    trimmed input with every maximal run of whitespace rendered as one
    space: the split that follows the whitespace collapse yields one
    paragraph, so the join has nothing to put a blank line between. *)
Theorem formatAbstract_single_line (s : jsstring) :
  ~ In LF (formatAbstract s)
  /\ formatAbstract s = whitespace_runs_to_space (trim s)
  /\ split LF
       (replace_runs is_whitespace [SPACE]
          (replace_runs is_newline [LF] (trim s)))
     = [formatAbstract s].
Proof.
  rewrite formatAbstract_collapses. split; [|split].
  - apply whitespace_runs_no_newline.
  - apply whitespace_runs_grouped.
  - unfold replace_runs.
    rewrite newline_runs_absorbed by discriminate.
    apply split_without_separator, whitespace_runs_no_newline.
Qed.

(** C5.  [formatAbstract] is idempotent. *)
Theorem formatAbstract_idempotent (s : jsstring) :
  formatAbstract (formatAbstract s) = formatAbstract s.
Proof.
  rewrite (formatAbstract_collapses (formatAbstract s)).
  rewrite (formatAbstract_collapses s).
  rewrite trim_fixed
    by apply (whitespace_runs_trimmed (trim s)), trim_trimmed.
  apply whitespace_runs_idem.
Qed.

(** ** The result monad *)

Lemma mapM_pure {A B : Type} (f : A -> result B) (g : A -> B) (l : list A) :
  (forall x, In x l -> f x = Ok (g x)) -> mapM f l = Ok (map g l).
Proof.
  induction l as [|x t IH]; intros H; simpl; [reflexivity|].
  rewrite (H x) by now left. simpl.
  rewrite IH by (intros y Hy; apply H; now right). reflexivity.
Qed.

Lemma filterM_pure {A : Type} (f : A -> result bool) (g : A -> bool)
    (l : list A) :
  (forall x, In x l -> f x = Ok (g x)) -> filterM f l = Ok (filter g l).
Proof.
  induction l as [|x t IH]; intros H; simpl; [reflexivity|].
  rewrite (H x) by now left. simpl.
  rewrite IH by (intros y Hy; apply H; now right). reflexivity.
Qed.

Lemma mapM_decide {A B : Type} (f : A -> result B) (g : A -> B)
    (ok : A -> bool) (l : list A) :
  (forall x, In x l -> f x = if ok x then Ok (g x) else Raise TypeError) ->
  mapM f l = if forallb ok l then Ok (map g l) else Raise TypeError.
Proof.
  induction l as [|x t IH]; intros H; simpl; [reflexivity|].
  rewrite (H x) by now left.
  rewrite IH by (intros y Hy; apply H; now right).
  destruct (ok x); simpl; [|reflexivity].
  now destruct (forallb ok t).
Qed.

Lemma filterM_decide {A : Type} (f : A -> result bool) (g : A -> bool)
    (ok : A -> bool) (l : list A) :
  (forall x, In x l -> f x = if ok x then Ok (g x) else Raise TypeError) ->
  filterM f l = if forallb ok l then Ok (filter g l) else Raise TypeError.
Proof.
  induction l as [|x t IH]; intros H; simpl; [reflexivity|].
  rewrite (H x) by now left.
  rewrite IH by (intros y Hy; apply H; now right).
  destruct (ok x); simpl; [|reflexivity].
  now destruct (forallb ok t).
Qed.

Lemma try_catch_none_total {A : Type} (body : result (option A)) :
  exists r, try_catch body (fun _ => ret None) = Ok r.
Proof.
  destruct body as [r|e]; simpl; eauto.
Qed.

(** ** The citation pipeline *)

Section CitationProperties.

Variable number : Type.
Variable number_zero : number.
Variable number_truthy : number -> bool.
Variable number_toString : number -> jsstring.
Variable requestUrl : Request.t -> outcome Response.t.
Variable JSON_parse : jsstring -> outcome (jsval number).

Local Abbreviation value := (jsval number).
Local Abbreviation getInfluentialPapers' :=
  (getInfluentialPapers number_truthy number_toString).
Local Abbreviation fetchCitationInfo' :=
  (fetchCitationInfo number_zero number_truthy number_toString
     requestUrl JSON_parse).

Lemma get_field (v : value) (k : jsstring) :
  nullish v = false -> get v k = Ok (field v k).
Proof.
  destruct v; simpl; try discriminate; try reflexivity.
  intros _. now destruct (lookup k props).
Qed.

Lemma ToString_decide (v : value) :
  ToString number_toString v
  = if printable v then Ok (rendered number_toString v)
    else Raise TypeError.
Proof.
  revert v. apply value_ind_arrays; [intros items IH|intros v].
  - cbn [ToString printable rendered].
    match goal with
    | |- bind (?each items) _ = _ =>
        assert (Heach :
          each items
          = if forallb (fun x => match x with
                                 | VUndefined | VNull => true
                                 | _ => printable x
                                 end) items
            then Ok (map (fun x => match x with
                                   | VUndefined | VNull => []
                                   | _ => rendered number_toString x
                                   end) items)
            else Raise TypeError)
    end.
    { induction IH as [|x t Hx _ IHt]; [reflexivity|].
      cbn [forallb map]. rewrite IHt.
      assert (Hx' : match x with
                    | VUndefined | VNull => ret []
                    | _ => ToString number_toString x
                    end
                    = if match x with
                         | VUndefined | VNull => true
                         | _ => printable x
                         end
                      then Ok (match x with
                               | VUndefined | VNull => []
                               | _ => rendered number_toString x
                               end)
                      else Raise TypeError).
      { destruct x; try reflexivity; exact Hx. }
      rewrite Hx'.
      destruct (match x with
                | VUndefined | VNull => true
                | _ => printable x
                end); simpl; [|reflexivity].
      now destruct (forallb _ t). }
    rewrite Heach. now destruct (forallb _ items).
  - destruct v as [| |b|n|s|items|props]; try reflexivity; try exact I.
    simpl. now destruct (lookup (lit "toString") props).
Qed.

Lemma join_element_decide (v : value) :
  join_element number_toString v
  = if joinable v then Ok (rendered_element number_toString v)
    else Raise TypeError.
Proof.
  unfold join_element, joinable, rendered_element.
  destruct (nullish v); [reflexivity|apply ToString_decide].
Qed.

Lemma array_join_decide (sep : jsstring) (items : list value) :
  array_join number_toString sep items
  = if forallb joinable items
    then Ok (join sep (map (rendered_element number_toString) items))
    else Raise TypeError.
Proof.
  unfold array_join.
  rewrite (mapM_decide _ (rendered_element number_toString) joinable)
    by (intros x _; apply join_element_decide).
  now destruct (forallb joinable items).
Qed.

Lemma authors_of_record (paper : value) :
  is_paper_record paper = true ->
  authors_of number_toString paper
  = Ok (author_names number_toString paper).
Proof.
  unfold is_paper_record, authors_of, author_names. intros H.
  apply andb_prop in H as [Hobj Hauth]. apply negb_true_iff in Hobj.
  rewrite get_field by exact Hobj.
  simpl. destruct (field paper (lit "authors")) as [| | | | |items|];
    try discriminate; try reflexivity.
  unfold authors_joinable in Hauth. apply andb_prop in Hauth as [Hthere Hnames].
  rewrite (mapM_pure _ (fun author => field author (lit "name"))).
  - cbn [bind]. rewrite array_join_decide, Hnames. cbn [bind ret].
    rewrite map_map. now destruct (join _ _).
  - intros a Ha. apply get_field, negb_true_iff.
    rewrite forallb_forall in Hthere. now apply Hthere.
Qed.

Lemma reshape_record (paper : value) :
  is_paper_record paper = true ->
  reshape number_toString paper
  = Ok (as_influential_paper number_toString paper).
Proof.
  intros H. unfold reshape, as_influential_paper.
  rewrite (authors_of_record paper H).
  apply andb_prop in H as [Hobj _]. apply negb_true_iff in Hobj.
  rewrite !get_field by exact Hobj. reflexivity.
Qed.

(** C8.  On a list of raw paper records the filter returns, in the
    order of the input, the records whose [isInfluential] is truthy, each
    reshaped with its author names joined; an absent list gives the
    empty sequence and no error. *)
Theorem getInfluentialPapers_filters (papers : list value) :
  forallb is_paper_record papers = true ->
  getInfluentialPapers' (VArray papers)
  = Ok (map (as_influential_paper number_toString)
          (filter (flagged_influential number_truthy) papers))
  /\ getInfluentialPapers' VUndefined = Ok [].
Proof.
  intros H. split; [|reflexivity].
  rewrite forallb_forall in H.
  unfold getInfluentialPapers. simpl.
  rewrite (filterM_pure _ (flagged_influential number_truthy)).
  - simpl.
    rewrite (mapM_pure _ (as_influential_paper number_toString));
      [reflexivity|].
    intros p Hp. apply filter_In in Hp as [Hp _].
    now apply reshape_record, H.
  - intros p Hp. specialize (H p Hp).
    unfold is_paper_record in H. apply andb_prop in H as [Hobj _].
    apply negb_true_iff in Hobj.
    rewrite get_field by exact Hobj. reflexivity.
Qed.

(** The two ways [fetchCitationInfo] returns. *)
Lemma fetchCitationInfo_cases (arxivId : jsstring) :
  fetchCitationInfo' arxivId = Ok (emptyCitationInfo number_zero)
  \/ exists (data cited citing : value)
            (cits refs : list (InfluentialPaper.t number)),
       citation_body requestUrl JSON_parse arxivId data
       /\ get data (lit "numCitedBy") = Ok cited
       /\ get data (lit "numCiting") = Ok citing
       /\ fetchCitationInfo' arxivId
          = Ok (CitationInfo.Build
                  (or_zero number_zero number_truthy cited)
                  (or_zero number_zero number_truthy citing) cits refs).
Proof.
  unfold fetchCitationInfo.
  destruct (requestUrl (citationRequest arxivId)) as [response|e] eqn:Ereq;
    simpl; [|now left].
  destruct (Response.status response =? 200)%Z eqn:Est; simpl; [|now left].
  apply Z.eqb_eq in Est.
  destruct (JSON_parse (Response.text response)) as [data|e] eqn:Ejson;
    simpl; [|now left].
  destruct (get data (lit "numCitedBy")) as [cited|e] eqn:E1;
    simpl; [|now left].
  destruct (get data (lit "numCiting")) as [citing|e] eqn:E2;
    simpl; [|now left].
  destruct (get data (lit "citations")) as [citations|e];
    simpl; [|now left].
  destruct (getInfluentialPapers' citations) as [cits|e];
    simpl; [|now left].
  destruct (get data (lit "references")) as [references|e];
    simpl; [|now left].
  destruct (getInfluentialPapers' references) as [refs|e];
    simpl; [|now left].
  right. exists data, cited, citing, cits, refs.
  repeat split; try assumption.
  exists response. now repeat split.
Qed.

(** C1.  [fetchCitationInfo] always returns a value, and when the
    transport throws, answers with a status other than 200, or answers
    200 with a body that is not JSON, that value is the zero record. *)
Theorem fetchCitationInfo_never_raises (arxivId : jsstring) :
  (exists info, fetchCitationInfo' arxivId = Ok info)
  /\ (citation_fetch_failed requestUrl JSON_parse arxivId ->
      fetchCitationInfo' arxivId
      = Ok (CitationInfo.Build (VNumber number_zero) (VNumber number_zero)
              [] [])).
Proof.
  split.
  - destruct (fetchCitationInfo_cases arxivId)
      as [H|(d & c1 & c2 & l1 & l2 & _ & _ & _ & H)];
      rewrite H; eauto.
  - unfold fetchCitationInfo.
    intros [e He|response He Hst|response e He Hst Hjson]; rewrite He; simpl.
    + reflexivity.
    + apply Z.eqb_neq in Hst. rewrite Hst. reflexivity.
    + rewrite Hst, Hjson. reflexivity.
Qed.

(** C9 (amended).  Each count of a returned record is [0] or the truthy
    value of the same field of the parsed 200 body, passed on as it is: so
    whatever holds of [0] and of the body's fields holds of the counts
    (being an integer that is not negative, for one); and when the body
    has no such field the count is [0]. *)
Theorem fetchCitationInfo_counts
    (arxivId : jsstring) (info : CitationInfo.t number) :
  fetchCitationInfo' arxivId = Ok info ->
  (count_from_body number_zero number_truthy requestUrl JSON_parse
     arxivId (lit "numCitedBy") (CitationInfo.numCitedBy info)
   /\ count_from_body number_zero number_truthy requestUrl JSON_parse
        arxivId (lit "numCiting") (CitationInfo.numCiting info))
  /\ (forall P : value -> Prop,
        P (VNumber number_zero) ->
        (forall (data v : value) (k : jsstring),
           citation_body requestUrl JSON_parse arxivId data ->
           get data k = Ok v -> truthy number_truthy v = true -> P v) ->
        P (CitationInfo.numCitedBy info) /\ P (CitationInfo.numCiting info))
  /\ (forall data : value,
        citation_body requestUrl JSON_parse arxivId data ->
        (get data (lit "numCitedBy") = Ok VUndefined ->
         CitationInfo.numCitedBy info = VNumber number_zero)
        /\ (get data (lit "numCiting") = Ok VUndefined ->
            CitationInfo.numCiting info = VNumber number_zero)).
Proof.
  intros Hinfo.
  assert (Hcount : forall (data v : value) (k : jsstring),
             citation_body requestUrl JSON_parse arxivId data ->
             get data k = Ok v ->
             count_from_body number_zero number_truthy requestUrl JSON_parse
               arxivId k (or_zero number_zero number_truthy v)).
  { intros data v k Hbody Hget. unfold or_zero.
    destruct (truthy number_truthy v) eqn:Et.
    - right. exists data. now repeat split.
    - now left. }
  assert (Hkeep : forall (P : value -> Prop) (k : jsstring) (v : value),
             P (VNumber number_zero) ->
             (forall (data v : value) (k : jsstring),
                citation_body requestUrl JSON_parse arxivId data ->
                get data k = Ok v -> truthy number_truthy v = true -> P v) ->
             count_from_body number_zero number_truthy requestUrl JSON_parse
               arxivId k v ->
             P v).
  { intros P k v H0 Hbody [->|(data & Hd & Hget & Ht)]; [exact H0|].
    now apply (Hbody data v k). }
  destruct (fetchCitationInfo_cases arxivId)
    as [H|(d & c1 & c2 & l1 & l2 & Hbody & H1 & H2 & H)];
    rewrite H in Hinfo; injection Hinfo as <-; simpl.
  - split; [split; now left|]. split.
    + intros P H0 _. now split.
    + intros data _. split; reflexivity.
  - split; [split; eapply Hcount; eassumption|]. split.
    + intros P H0 HP.
      split; (eapply Hkeep; [exact H0|exact HP|eapply Hcount; eassumption]).
    + intros data (r' & Hreq' & _ & Hjson').
      destruct Hbody as (r & Hreq & _ & Hjson).
      rewrite Hreq in Hreq'. injection Hreq' as <-.
      rewrite Hjson in Hjson'. injection Hjson' as <-.
      split; intros Hk.
      * rewrite H1 in Hk. injection Hk as ->. reflexivity.
      * rewrite H2 in Hk. injection Hk as ->. reflexivity.
Qed.

End CitationProperties.

(** ** The metadata pipeline *)

Lemma split_head (sep : code_unit) (s : jsstring) :
  nth_error (split sep s) 0 = Some (before_first sep s).
Proof.
  induction s as [|c t IH]; simpl; [reflexivity|].
  destruct (c =? sep)%N; [reflexivity|].
  destruct (split sep t) as [|piece rest]; simpl in *.
  - discriminate.
  - now injection IH as ->.
Qed.

Lemma or_default_nonempty (s d : jsstring) :
  s <> [] -> or_default (Some s) d = s.
Proof. destruct s; [contradiction|reflexivity]. Qed.

Section MetadataProperties.

Variable extractArxivId : jsstring -> option jsstring.
Variable requestUrl : Request.t -> outcome Response.t.
Variable DOMParser_parseFromString : jsstring -> document.

Local Abbreviation parseArxivResponse' :=
  (parseArxivResponse DOMParser_parseFromString).
Local Abbreviation fetchArxivMetadata' :=
  (fetchArxivMetadata extractArxivId requestUrl DOMParser_parseFromString).
Local Abbreviation feed_entry' :=
  (feed_entry extractArxivId requestUrl DOMParser_parseFromString).
Local Abbreviation first_entry xmlText :=
  (querySelector (TypeSel (lit "entry"))
     (document_elements (DOMParser_parseFromString xmlText))).
Local Abbreviation entries_of xmlText :=
  (querySelectorAll (TypeSel (lit "entry"))
     (document_elements (DOMParser_parseFromString xmlText))).
Local Abbreviation child_of entry nm :=
  (querySelector (TypeSel (lit nm)) (descendant_elements entry)).

Lemma fetchArxivMetadata_answered
    (url arxivId : jsstring) (response : Response.t) :
  extractArxivId url = Some arxivId -> arxivId <> [] ->
  requestUrl (metadataRequest arxivId) = Answered response ->
  fetchArxivMetadata' url
  = if negb (Response.status response =? 200)%Z
    then Raise (UpstreamError (Response.status response))
    else parseArxivResponse' (Response.text response).
Proof.
  intros Hid Hne Hreq. unfold fetchArxivMetadata. rewrite Hid.
  destruct arxivId as [|c rest]; [contradiction|].
  rewrite Hreq. reflexivity.
Qed.

Lemma fetchArxivMetadata_feed_entry (url : jsstring) (entry : located) :
  feed_entry' url entry ->
  fetchArxivMetadata' url = Ok (metadata_of_entry entry).
Proof.
  intros (arxivId & response & Hid & Hne & Hreq & Hst & Hentry).
  rewrite (fetchArxivMetadata_answered url arxivId response Hid Hne Hreq).
  rewrite Hst. simpl. unfold parseArxivResponse. now rewrite Hentry.
Qed.

Lemma find_filter {A : Type} (p : A -> bool) (l : list A) :
  find p l = hd_error (filter p l).
Proof.
  induction l as [|x t IH]; simpl; [reflexivity|].
  now destruct (p x).
Qed.

Lemma fetchArxivMetadata_transport_threw
    (url arxivId detail : jsstring) :
  extractArxivId url = Some arxivId -> arxivId <> [] ->
  requestUrl (metadataRequest arxivId) = Threw detail ->
  fetchArxivMetadata' url = Raise (HostFailure detail).
Proof.
  intros Hid Hne Hreq. unfold fetchArxivMetadata. rewrite Hid.
  destruct arxivId as [|c rest]; [contradiction|].
  rewrite Hreq. reflexivity.
Qed.

(** C2 (amended).  The outcomes of [fetchArxivMetadata], in the order the
    code decides them: [InvalidInput] exactly when the extraction gives no
    identifier; then, when the transport throws, the failure of the
    transport as it was thrown; then, the endpoint having answered,
    [UpstreamError] with the status exactly when the status is not 200;
    then [NotFound] exactly when the body has no [entry] element; else
    the record of the entry, the first one in document order. *)
Theorem fetchArxivMetadata_outcomes (url : jsstring) :
  (fetchArxivMetadata' url = Raise InvalidInput
   <-> no_identifier (extractArxivId url))
  /\ (forall (arxivId : jsstring) (response : Response.t),
        extractArxivId url = Some arxivId -> arxivId <> [] ->
        requestUrl (metadataRequest arxivId) = Answered response ->
        ((exists status, fetchArxivMetadata' url = Raise (UpstreamError status))
         <-> Response.status response <> 200%Z)
        /\ (Response.status response <> 200%Z ->
            fetchArxivMetadata' url
            = Raise (UpstreamError (Response.status response)))
        /\ (Response.status response = 200%Z ->
            (fetchArxivMetadata' url = Raise NotFound
             <-> entries_of (Response.text response) = [])
            /\ (forall (entry : located) (others : list located),
                  entries_of (Response.text response) = entry :: others ->
                  fetchArxivMetadata' url = Ok (metadata_of_entry entry))))
  /\ (forall arxivId detail : jsstring,
        extractArxivId url = Some arxivId -> arxivId <> [] ->
        requestUrl (metadataRequest arxivId) = Threw detail ->
        fetchArxivMetadata' url = Raise (HostFailure detail)).
Proof.
  split; [|split; [|apply fetchArxivMetadata_transport_threw]].
  - unfold no_identifier, fetchArxivMetadata.
    destruct (extractArxivId url) as [[|c rest]|] eqn:Hid.
    + split; [now right|reflexivity].
    + split; [|intros [H|H]; discriminate].
      destruct (requestUrl _) as [response|detail]; simpl;
        [|discriminate].
      destruct (negb _); [discriminate|].
      unfold parseArxivResponse.
      destruct (querySelector _ _); discriminate.
    + split; [now left|reflexivity].
  - intros arxivId response Hid Hne Hreq.
    rewrite (fetchArxivMetadata_answered url arxivId response Hid Hne Hreq).
    destruct (Z.eqb_spec (Response.status response) 200) as [Hst|Hst];
      simpl.
    + unfold parseArxivResponse, querySelector, querySelectorAll.
      rewrite find_filter.
      destruct (filter _ _) as [|entry others]; simpl.
      * repeat split; try congruence; try discriminate.
        intros [status H]. discriminate.
      * repeat split; try congruence; try discriminate.
        -- intros [status H]. discriminate.
        -- intros entry' others' [= <- _]. reflexivity.
    + repeat split; try congruence; try contradiction; eauto.
Qed.

(** C6 (amended).  With the endpoint answering 200 and the elements
    present in the first entry, the record holds: the trimmed title
    text; the id text as it is; the published text before the first
    [T]; the author-name texts joined with a comma and a space; and the
    normalised summary text.  The title, date and summary conditions
    say that the text is not empty. *)
Theorem fetchArxivMetadata_fields
    (url : jsstring) (entry t i p s : located) :
  feed_entry' url entry ->
  child_of entry "title" = Some t ->
  child_of entry "id" = Some i ->
  child_of entry "published" = Some p ->
  child_of entry "summary" = Some s ->
  exists r : ArxivMetadataType.t,
    fetchArxivMetadata' url = Ok r
    /\ (trim (textContent (here t)) <> [] ->
        ArxivMetadataType.title r = trim (textContent (here t)))
    /\ ArxivMetadataType.paperLink r = textContent (here i)
    /\ (before_first LETTER_T (textContent (here p)) <> [] ->
        ArxivMetadataType.publishDate r
        = before_first LETTER_T (textContent (here p)))
    /\ ArxivMetadataType.authors r
       = join (lit ", ")
           (map (fun a => textContent (here a))
              (querySelectorAll (DescendantSel (lit "author") (lit "name"))
                 (descendant_elements entry)))
    /\ (textContent (here s) <> [] ->
        ArxivMetadataType.abstract r = formatAbstract (textContent (here s))).
Proof.
  intros Hfeed Ht Hi Hp Hs.
  exists (metadata_of_entry entry). split.
  - now apply fetchArxivMetadata_feed_entry.
  - unfold metadata_of_entry.
    cbn [ArxivMetadataType.title ArxivMetadataType.paperLink
         ArxivMetadataType.publishDate ArxivMetadataType.authors
         ArxivMetadataType.abstract].
    rewrite Ht, Hi, Hp, Hs. cbn [option_map].
    rewrite split_head. repeat split.
    + apply or_default_nonempty.
    + now destruct (textContent (here i)).
    + apply or_default_nonempty.
    + intros Hne. now rewrite or_default_nonempty by exact Hne.
Qed.

(** C7.  Once the feed has an entry the parse returns a record; a
    missing title, summary or published element gives the literal
    fallback (the abstract being the normalised literal), a missing id
    gives the empty link. *)
Theorem parseArxivResponse_fallbacks
    (xmlText : jsstring) (entry : located) :
  first_entry xmlText = Some entry ->
  exists r : ArxivMetadataType.t,
    parseArxivResponse' xmlText = Ok r
    /\ (child_of entry "title" = None ->
        ArxivMetadataType.title r = NO_TITLE)
    /\ (child_of entry "summary" = None ->
        ArxivMetadataType.abstract r = formatAbstract NO_ABSTRACT)
    /\ (child_of entry "published" = None ->
        ArxivMetadataType.publishDate r = NO_DATE)
    /\ (child_of entry "id" = None ->
        ArxivMetadataType.paperLink r = []).
Proof.
  intros He. exists (metadata_of_entry entry).
  unfold parseArxivResponse. rewrite He.
  split; [reflexivity|].
  unfold metadata_of_entry. simpl.
  repeat split; intros ->; reflexivity.
Qed.

(** C10.  With no [name] element under an [author] in the entry, the
    authors field is the empty string. *)
Theorem fetchArxivMetadata_no_authors (url : jsstring) (entry : located) :
  feed_entry' url entry ->
  querySelectorAll (DescendantSel (lit "author") (lit "name"))
    (descendant_elements entry) = [] ->
  exists r : ArxivMetadataType.t,
    fetchArxivMetadata' url = Ok r
    /\ ArxivMetadataType.authors r = [].
Proof.
  intros Hfeed Hnone. exists (metadata_of_entry entry). split.
  - now apply fetchArxivMetadata_feed_entry.
  - unfold metadata_of_entry. simpl. now rewrite Hnone.
Qed.

End MetadataProperties.

(** ** The class on the sample host *)

Example fetchArxivMetadata_invalid_input :
  fetchArxivMetadata sample_extractArxivId unreachable_host
    sample_parseFromString (lit "not a url")
  = Raise InvalidInput.
Proof. reflexivity. Qed.

Example fetchArxivMetadata_upstream_error :
  fetchArxivMetadata sample_extractArxivId (answer_with 503 [])
    sample_parseFromString sample_url
  = Raise (UpstreamError 503).
Proof. reflexivity. Qed.

Example fetchArxivMetadata_not_found :
  fetchArxivMetadata sample_extractArxivId (answer_with 200 (lit "<feed/>"))
    sample_parseFromString sample_url
  = Raise NotFound.
Proof. reflexivity. Qed.

Example fetchArxivMetadata_sample :
  fetchArxivMetadata sample_extractArxivId
    (answer_with 200 (feed_text sample_feed)) sample_parseFromString sample_url
  = Ok (ArxivMetadataType.Build
          (lit "On Graphs") sample_link (lit "2024-04-25")
          (lit "Ada Kim, Bo Lee") (lit "We study graphs.")).
Proof. reflexivity. Qed.

Lemma sample_feed_entry :
  feed_entry sample_extractArxivId (answer_with 200 (feed_text sample_feed))
    sample_parseFromString sample_url sample_located_entry.
Proof.
  exists sample_id, (Response.Build 200 (feed_text sample_feed)).
  repeat split; try reflexivity. discriminate.
Defined.

Lemma bare_feed_entry :
  feed_entry sample_extractArxivId (answer_with 200 (feed_text bare_feed))
    sample_parseFromString sample_url bare_located_entry.
Proof.
  exists sample_id, (Response.Build 200 (feed_text bare_feed)).
  repeat split; try reflexivity. discriminate.
Defined.

(** C2: with an identifier and a transport that throws, the fetch fails
    with the failure of the transport, which is none of the three kinds of
    error and not a record. *)
Lemma fetchArxivMetadata_transport_failure :
  sample_extractArxivId sample_url = Some sample_id
  /\ fetchArxivMetadata sample_extractArxivId unreachable_host
       sample_parseFromString sample_url
     = Raise (HostFailure (lit "net::ERR_CONNECTION_REFUSED")).
Proof. split; reflexivity. Qed.

(** C1, on a host that cannot be reached. *)
Lemma fetchCitationInfo_never_raises_unreachable :
  citation_fetch_failed unreachable_host sample_JSON_parse sample_id
  /\ fetchCitationInfo 0%Z integer_truthy integer_toString unreachable_host
       sample_JSON_parse sample_id
     = Ok (CitationInfo.Build (VNumber 0%Z) (VNumber 0%Z) [] []).
Proof.
  assert (H : citation_fetch_failed unreachable_host sample_JSON_parse
                sample_id).
  { apply transport_threw with (detail := lit "net::ERR_CONNECTION_REFUSED").
    reflexivity. }
  split; [exact H|].
  exact (proj2 (fetchCitationInfo_never_raises Z 0%Z integer_truthy
                  integer_toString unreachable_host sample_JSON_parse
                  sample_id) H).
Defined.

(** C6: the summary of the sample feed comes out with its inner run of
    spaces collapsed, which is not its trimmed text, and the link keeps the
    whitespace around it. *)
Lemma fetchArxivMetadata_not_verbatim :
  exists r : ArxivMetadataType.t,
    fetchArxivMetadata sample_extractArxivId
      (answer_with 200 (feed_text sample_feed)) sample_parseFromString
      sample_url = Ok r
    /\ ArxivMetadataType.abstract r = lit "We study graphs."
    /\ ArxivMetadataType.abstract r <> trim sample_summary
    /\ ArxivMetadataType.paperLink r <> trim sample_link.
Proof.
  eexists. split; [reflexivity|].
  repeat split; discriminate.
Qed.

(** C6 (amended), on the sample feed. *)
Lemma fetchArxivMetadata_fields_sample :
  exists r : ArxivMetadataType.t,
    fetchArxivMetadata sample_extractArxivId
      (answer_with 200 (feed_text sample_feed)) sample_parseFromString
      sample_url = Ok r
    /\ ArxivMetadataType.title r = lit "On Graphs"
    /\ ArxivMetadataType.paperLink r = sample_link
    /\ ArxivMetadataType.publishDate r = lit "2024-04-25"
    /\ ArxivMetadataType.authors r = lit "Ada Kim, Bo Lee"
    /\ ArxivMetadataType.abstract r = lit "We study graphs.".
Proof.
  destruct (fetchArxivMetadata_fields sample_extractArxivId
              (answer_with 200 (feed_text sample_feed)) sample_parseFromString
              sample_url sample_located_entry
              (sample_child (leaf "title" (lit " On Graphs ")))
              (sample_child (leaf "id" sample_link))
              (sample_child (leaf "published" (lit "2024-04-25T00:14:29Z")))
              (sample_child (leaf "summary" sample_summary))
              sample_feed_entry eq_refl eq_refl eq_refl eq_refl)
    as (r & Hr & Ht & Hi & Hp & Ha & Hs).
  exists r. split; [exact Hr|].
  split; [apply Ht; discriminate|].
  split; [exact Hi|].
  split; [apply Hp; discriminate|].
  split; [exact Ha|].
  apply Hs; discriminate.
Defined.

(** C7, on an entry that has no child element. *)
Lemma parseArxivResponse_fallbacks_bare :
  querySelector (TypeSel (lit "entry"))
    (document_elements (sample_parseFromString (feed_text bare_feed)))
  = Some bare_located_entry
  /\ exists r : ArxivMetadataType.t,
       parseArxivResponse sample_parseFromString (feed_text bare_feed) = Ok r
       /\ ArxivMetadataType.title r = NO_TITLE
       /\ ArxivMetadataType.abstract r = NO_ABSTRACT
       /\ ArxivMetadataType.publishDate r = NO_DATE
       /\ ArxivMetadataType.paperLink r = [].
Proof.
  split; [reflexivity|].
  destruct (parseArxivResponse_fallbacks sample_parseFromString
              (feed_text bare_feed) bare_located_entry eq_refl)
    as (r & Hr & Ht & Hs & Hp & Hi).
  exists r. split; [exact Hr|].
  split; [exact (Ht eq_refl)|].
  split; [exact (Hs eq_refl)|].
  split; [exact (Hp eq_refl)|exact (Hi eq_refl)].
Defined.

(** C8, on three records of which the second is influential. *)
Lemma getInfluentialPapers_filters_sample :
  forallb is_paper_record sample_papers = true
  /\ getInfluentialPapers integer_truthy integer_toString
       (VArray sample_papers) = Ok [influential_p2].
Proof.
  split; [reflexivity|].
  exact (proj1 (getInfluentialPapers_filters Z integer_truthy integer_toString
                  sample_papers eq_refl)).
Defined.

(** C9: a body whose count is negative is passed on. *)
Lemma fetchCitationInfo_negative_count :
  fetchCitationInfo 0%Z integer_truthy integer_toString
    (answer_with 200 negative_body) sample_JSON_parse sample_id
  = Ok (CitationInfo.Build (VNumber (-5)%Z) (VNumber 0%Z) [] [])
  /\ (-5 < 0)%Z.
Proof. split; reflexivity. Qed.

(** C9 (amended), on a body with both counts. *)
Lemma fetchCitationInfo_counts_sample :
  fetchCitationInfo 0%Z integer_truthy integer_toString
    (answer_with 200 counts_body) sample_JSON_parse sample_id
  = Ok (CitationInfo.Build (VNumber 12%Z) (VNumber 3%Z) [] [])
  /\ count_from_body 0%Z integer_truthy (answer_with 200 counts_body)
       sample_JSON_parse sample_id (lit "numCitedBy") (VNumber 12%Z)
  /\ count_from_body 0%Z integer_truthy (answer_with 200 counts_body)
       sample_JSON_parse sample_id (lit "numCiting") (VNumber 3%Z).
Proof.
  split; [reflexivity|].
  exact (proj1 (fetchCitationInfo_counts Z 0%Z integer_truthy integer_toString
                  (answer_with 200 counts_body) sample_JSON_parse sample_id
                  (CitationInfo.Build (VNumber 12%Z) (VNumber 3%Z) [] [])
                  eq_refl)).
Defined.

(** C10, on an entry that has no author. *)
Lemma fetchArxivMetadata_no_authors_bare :
  querySelectorAll (DescendantSel (lit "author") (lit "name"))
    (descendant_elements bare_located_entry) = []
  /\ exists r : ArxivMetadataType.t,
       fetchArxivMetadata sample_extractArxivId
         (answer_with 200 (feed_text bare_feed)) sample_parseFromString
         sample_url = Ok r
       /\ ArxivMetadataType.authors r = [].
Proof.
  split; [reflexivity|].
  exact (fetchArxivMetadata_no_authors sample_extractArxivId
           (answer_with 200 (feed_text bare_feed)) sample_parseFromString
           sample_url bare_located_entry bare_feed_entry eq_refl).
Defined.

(* ===================================================================== *)
(** * Part III: further properties of the code *)
(* ===================================================================== *)

(** ** formatAbstract: words, normal form, content *)

Lemma words_nonempty_content (s : jsstring) :
  Forall (fun w => w <> [] /\ forallb not_whitespace w = true) (words s)
  /\ concat (words s) = filter not_whitespace s.
Proof.
  induction s as [|c t [IHw IHc]]; simpl; [split; [constructor|reflexivity]|].
  unfold not_whitespace at 2. destruct (is_whitespace c) eqn:E; simpl.
  - split; assumption.
  - unfold push_unit.
    destruct (starts_word t), (words t) as [|w rest]; simpl in *.
    + split; [|now rewrite <- IHc].
      constructor; [|constructor]. split; [discriminate|].
      simpl. unfold not_whitespace. now rewrite E.
    + inversion IHw as [|x l [Hne Hall] Hrest]; subst.
      split; [|now rewrite <- IHc].
      constructor; [|exact Hrest]. split; [discriminate|].
      simpl. unfold not_whitespace at 1. now rewrite E.
    + split; [|now rewrite <- IHc].
      constructor; [|constructor]. split; [discriminate|].
      simpl. unfold not_whitespace. now rewrite E.
    + split; [|now rewrite <- IHc].
      constructor; [|exact IHw]. split; [discriminate|].
      simpl. unfold not_whitespace. now rewrite E.
Qed.

Lemma words_trimStart (s : jsstring) : words (trimStart s) = words s.
Proof.
  induction s as [|c t IH]; simpl; [reflexivity|].
  destruct (is_whitespace c) eqn:E; [exact IH|].
  simpl. now rewrite E.
Qed.

Lemma starts_word_trimEnd (s : jsstring) :
  starts_word (trimEnd s) = starts_word s.
Proof.
  destruct s as [|c t]; [reflexivity|].
  simpl. destruct (trimEnd t); destruct (is_whitespace c) eqn:E; simpl;
    now rewrite ?E.
Qed.

Lemma words_trimEnd (s : jsstring) : words (trimEnd s) = words s.
Proof.
  induction s as [|c t IH]; [reflexivity|].
  pose proof (starts_word_trimEnd t) as Hs.
  change (trimEnd (c :: t))
    with (match trimEnd t with
          | [] => if is_whitespace c then [] else [c]
          | x :: u => c :: x :: u
          end).
  change (words (c :: t))
    with (if is_whitespace c then words t
          else push_unit c (starts_word t) (words t)).
  rewrite <- IH, <- Hs.
  destruct (trimEnd t) as [|x u].
  - destruct (is_whitespace c) eqn:E; simpl; [reflexivity|].
    now rewrite E.
  - change (words (c :: x :: u))
      with (if is_whitespace c then words (x :: u)
            else push_unit c (starts_word (x :: u)) (words (x :: u))).
    reflexivity.
Qed.

Lemma words_trim (s : jsstring) : words (trim s) = words s.
Proof. unfold trim. now rewrite words_trimEnd, words_trimStart. Qed.

Lemma join_push (sep : jsstring) (c : code_unit) (w : jsstring)
    (rest : list jsstring) :
  join sep ((c :: w) :: rest) = c :: join sep (w :: rest).
Proof. destruct rest; reflexivity. Qed.

Lemma words_of_ended (t : jsstring) :
  t <> [] -> no_trailing_ws t = true -> words t <> [].
Proof.
  induction t as [|c t IH]; intros Hne Hend; [contradiction|].
  destruct t as [|c' t'].
  - simpl in *. apply negb_true_iff in Hend. rewrite Hend. discriminate.
  - change (no_trailing_ws (c' :: t') = true) in Hend.
    assert (H : words (c' :: t') <> []) by (apply IH; [discriminate|exact Hend]).
    change (words (c :: c' :: t'))
      with (if is_whitespace c then words (c' :: t')
            else push_unit c (starts_word (c' :: t')) (words (c' :: t'))).
    destruct (is_whitespace c); [exact H|].
    unfold push_unit.
    destruct (starts_word (c' :: t')), (words (c' :: t')); discriminate.
Qed.

Lemma words_of_word_start (t : jsstring) :
  starts_word t = true -> words t <> [].
Proof.
  destruct t as [|c t]; simpl; [discriminate|].
  intros H. apply negb_true_iff in H. rewrite H.
  unfold push_unit. destruct (starts_word t), (words t); discriminate.
Qed.

Lemma whitespace_runs_words (t : jsstring) :
  no_trailing_ws t = true ->
  replace_runs_from is_whitespace [SPACE] true t = join [SPACE] (words t)
  /\ replace_runs_from is_whitespace [SPACE] false t
     = (if no_leading_ws t then [] else [SPACE]) ++ join [SPACE] (words t).
Proof.
  induction t as [|c t IH]; intros Hend; [split; reflexivity|].
  assert (Ht : t = [] \/ (t <> [] /\ no_trailing_ws t = true)).
  { destruct t; [now left|right]. split; [discriminate|exact Hend]. }
  simpl. destruct (is_whitespace c) eqn:E; simpl.
  - destruct Ht as [->|[Hne Ht]].
    + simpl in Hend. rewrite E in Hend. discriminate.
    + destruct (IH Ht) as [IH1 _]. rewrite IH1. split; reflexivity.
  - assert (Hgoal : c :: replace_runs_from is_whitespace [SPACE] false t
                    = join [SPACE] (push_unit c (starts_word t) (words t))).
    { destruct Ht as [->|[Hne Ht]]; [reflexivity|].
      destruct (IH Ht) as [_ IH2]. rewrite IH2.
      destruct t as [|c' t']; [contradiction|].
      simpl no_leading_ws. simpl starts_word.
      destruct (is_whitespace c') eqn:E'; simpl negb; cbv iota.
      - pose proof (words_of_ended (c' :: t') Hne Ht) as Hw.
        unfold push_unit. destruct (words (c' :: t')) as [|w rest];
          [contradiction|]. reflexivity.
      - assert (Hs : starts_word (c' :: t') = true) by (simpl; now rewrite E').
        pose proof (words_of_word_start (c' :: t') Hs) as Hw.
        unfold push_unit. destruct (words (c' :: t')) as [|w rest];
          [contradiction|].
        now rewrite join_push. }
    split; exact Hgoal.
Qed.

(** X1.  The normalised abstract is the words of the text joined by
    single spaces. *)
Theorem formatAbstract_words (s : jsstring) :
  formatAbstract s = join [SPACE] (words s).
Proof.
  rewrite formatAbstract_collapses. unfold replace_runs.
  pose proof (trim_trimmed s) as H. unfold trimmed in H.
  apply andb_prop in H as [Hlead Hend].
  destruct (whitespace_runs_words (trim s) Hend) as [_ ->].
  rewrite Hlead. simpl. now rewrite words_trim.
Qed.

Lemma whitespace_runs_start (t : jsstring) :
  no_leading_ws (replace_runs_from is_whitespace [SPACE] true t) = true.
Proof.
  induction t as [|c t IH]; simpl; [reflexivity|].
  destruct (is_whitespace c) eqn:E; simpl; [exact IH|now rewrite E].
Qed.

Lemma whitespace_runs_single_spaced (t : jsstring) (b : bool) :
  single_spaced (replace_runs_from is_whitespace [SPACE] b t) = true.
Proof.
  revert b. induction t as [|c t IH]; intros b; simpl; [reflexivity|].
  destruct (is_whitespace c) eqn:E.
  - destruct b; simpl; [apply IH|].
    change (is_whitespace SPACE) with true. cbv iota.
    rewrite whitespace_runs_start, IH. reflexivity.
  - simpl. rewrite E. apply IH.
Qed.

Lemma single_spaced_fixed (t : jsstring) :
  single_spaced t = true ->
  replace_runs_from is_whitespace [SPACE] false t = t
  /\ (no_leading_ws t = true ->
      replace_runs_from is_whitespace [SPACE] true t = t).
Proof.
  induction t as [|c t IH]; intros H; [split; reflexivity|].
  simpl in H. apply andb_prop in H as [Hc Ht].
  destruct (IH Ht) as [IH1 IH2]. simpl.
  destruct (is_whitespace c) eqn:E.
  - apply andb_prop in Hc as [Hsp Hlead]. apply N.eqb_eq in Hsp. subst c.
    split; [|discriminate]. simpl. now rewrite IH2.
  - split; [|intros _]; now rewrite IH1.
Qed.

(** X2.  The strings that normalisation leaves as they are are exactly
    the normal ones: no whitespace at either end, and every whitespace
    code unit a single space between two words. *)
Theorem formatAbstract_fixed_iff (s : jsstring) :
  formatAbstract s = s <-> normalized s = true.
Proof.
  unfold normalized. split.
  - intros H. rewrite <- H, formatAbstract_collapses.
    apply andb_true_intro. split.
    + apply (whitespace_runs_trimmed (trim s)), trim_trimmed.
    + apply whitespace_runs_single_spaced.
  - intros H. apply andb_prop in H as [Htrim Hsp].
    rewrite formatAbstract_collapses, (trim_fixed s Htrim).
    now apply single_spaced_fixed.
Qed.

Lemma filter_trimStart (s : jsstring) :
  filter not_whitespace (trimStart s) = filter not_whitespace s.
Proof.
  induction s as [|c t IH]; simpl; [reflexivity|].
  unfold not_whitespace at 2.
  destruct (is_whitespace c) eqn:E; simpl; [exact IH|].
  unfold not_whitespace at 1. now rewrite E.
Qed.

Lemma filter_trimEnd (s : jsstring) :
  filter not_whitespace (trimEnd s) = filter not_whitespace s.
Proof.
  induction s as [|c t IH]; [reflexivity|].
  change (trimEnd (c :: t))
    with (match trimEnd t with
          | [] => if is_whitespace c then [] else [c]
          | x :: u => c :: x :: u
          end).
  simpl filter at 2. rewrite <- IH.
  destruct (trimEnd t) as [|x u]; [|reflexivity].
  unfold not_whitespace. destruct (is_whitespace c) eqn:E; simpl;
    [reflexivity|now rewrite E].
Qed.

Lemma filter_whitespace_runs (t : jsstring) (b : bool) :
  filter not_whitespace (replace_runs_from is_whitespace [SPACE] b t)
  = filter not_whitespace t.
Proof.
  revert b. induction t as [|c t IH]; intros b; simpl; [reflexivity|].
  unfold not_whitespace at 2.
  destruct (is_whitespace c) eqn:E; simpl.
  - destruct b; simpl; apply IH.
  - unfold not_whitespace at 1. rewrite E. simpl. now rewrite IH.
Qed.

Lemma length_trimStart (s : jsstring) : length (trimStart s) <= length s.
Proof.
  induction s as [|c t IH]; simpl; [lia|].
  destruct (is_whitespace c); simpl; lia.
Qed.

Lemma length_trimEnd (s : jsstring) : length (trimEnd s) <= length s.
Proof.
  induction s as [|c t IH]; simpl; [lia|].
  destruct (trimEnd t); [destruct (is_whitespace c)|]; simpl in *; lia.
Qed.

Lemma length_whitespace_runs (t : jsstring) (b : bool) :
  length (replace_runs_from is_whitespace [SPACE] b t) <= length t.
Proof.
  revert b. induction t as [|c t IH]; intros b; simpl; [lia|].
  destruct (is_whitespace c).
  - destruct b; simpl; [specialize (IH true)|specialize (IH true)]; lia.
  - simpl. specialize (IH false). lia.
Qed.

(** X3.  Normalisation touches whitespace only: the code units that are
    not whitespace come out as they went in, in the same order, and the
    result is never longer than the text. *)
Theorem formatAbstract_keeps_content (s : jsstring) :
  filter not_whitespace (formatAbstract s) = filter not_whitespace s
  /\ length (formatAbstract s) <= length s.
Proof.
  rewrite formatAbstract_collapses. unfold replace_runs, trim. split.
  - now rewrite filter_whitespace_runs, filter_trimEnd, filter_trimStart.
  - pose proof (length_whitespace_runs (trimEnd (trimStart s)) false).
    pose proof (length_trimEnd (trimStart s)).
    pose proof (length_trimStart s). lia.
Qed.

Lemma filter_not_whitespace_nil (s : jsstring) :
  filter not_whitespace s = [] <-> forallb is_whitespace s = true.
Proof.
  induction s as [|c t IH]; simpl; [tauto|].
  unfold not_whitespace at 1. destruct (is_whitespace c); simpl.
  - exact IH.
  - split; discriminate.
Qed.

(** X4.  The normalised abstract is empty exactly when the text is empty
    or all whitespace. *)
Theorem formatAbstract_empty_iff (s : jsstring) :
  formatAbstract s = [] <-> forallb is_whitespace s = true.
Proof.
  rewrite <- filter_not_whitespace_nil.
  destruct (words_nonempty_content s) as [Hw Hc].
  rewrite formatAbstract_words, <- Hc.
  destruct (words s) as [|w rest]; [tauto|].
  inversion Hw as [|x l [Hne _] _]; subst.
  split; intros H; exfalso.
  - destruct w; [contradiction|]. destruct rest; discriminate.
  - simpl in H. destruct w; [contradiction|discriminate].
Qed.

Lemma formatAbstract_normalized (s : jsstring) :
  normalized (formatAbstract s) = true.
Proof.
  rewrite formatAbstract_collapses. unfold normalized.
  apply andb_true_intro. split.
  - apply (whitespace_runs_trimmed (trim s)), trim_trimmed.
  - apply whitespace_runs_single_spaced.
Qed.

Lemma trimStart_blank (s : jsstring) :
  trimStart s = [] <-> forallb is_whitespace s = true.
Proof.
  induction s as [|c t IH]; simpl; [tauto|].
  destruct (is_whitespace c); simpl; [exact IH|].
  split; discriminate.
Qed.

Lemma trim_blank (s : jsstring) :
  trim s = [] <-> forallb is_whitespace s = true.
Proof.
  rewrite <- trimStart_blank. unfold trim. split.
  - intros H. pose proof (trimStart_no_leading_ws s) as Hl.
    destruct (trimStart s) as [|c t]; [reflexivity|].
    simpl in Hl. apply negb_true_iff in Hl.
    destruct (trimEnd_cons_non_ws c t Hl) as [u Hu].
    rewrite Hu in H. discriminate.
  - now intros ->.
Qed.

Lemma formatAbstract_blank (s : jsstring) :
  formatAbstract s = [] <-> forallb is_whitespace s = true.
Proof.
  rewrite <- trim_blank, formatAbstract_collapses. unfold replace_runs.
  split.
  - destruct (trim s) as [|c t]; [reflexivity|].
    simpl. destruct (is_whitespace c); discriminate.
  - now intros ->.
Qed.

Lemma before_first_without (sep : code_unit) (s : jsstring) :
  ~ In sep (before_first sep s).
Proof.
  induction s as [|c t IH]; simpl; [tauto|].
  destruct (N.eqb_spec c sep) as [->|Hne]; simpl; [tauto|].
  intros [H|H]; [now apply Hne|now apply IH].
Qed.

(** ** The metadata pipeline, further *)

Section MetadataCoverage.

Variable extractArxivId : jsstring -> option jsstring.
Variable requestUrl : Request.t -> outcome Response.t.
Variable DOMParser_parseFromString : jsstring -> document.

Local Abbreviation fetchArxivMetadata' :=
  (fetchArxivMetadata extractArxivId requestUrl DOMParser_parseFromString).
Local Abbreviation feed_entry' :=
  (feed_entry extractArxivId requestUrl DOMParser_parseFromString).
Local Abbreviation first_entry xmlText :=
  (querySelector (TypeSel (lit "entry"))
     (document_elements (DOMParser_parseFromString xmlText))).
Local Abbreviation child_of entry nm :=
  (querySelector (TypeSel (lit nm)) (descendant_elements entry)).

Lemma fetchArxivMetadata_ok_entry
    (url : jsstring) (r : ArxivMetadataType.t) :
  fetchArxivMetadata' url = Ok r ->
  exists entry : located, feed_entry' url entry /\ r = metadata_of_entry entry.
Proof.
  unfold fetchArxivMetadata, feed_entry.
  destruct (extractArxivId url) as [[|c rest]|] eqn:Hid; try discriminate.
  destruct (requestUrl (metadataRequest (c :: rest)))
    as [response|detail] eqn:Hreq; simpl; [|discriminate].
  destruct (Z.eqb_spec (Response.status response) 200) as [Hst|Hst]; simpl;
    [|discriminate].
  unfold parseArxivResponse.
  destruct (querySelector _ _) as [entry|] eqn:He; [|discriminate].
  intros [= <-]. exists entry. split; [|reflexivity].
  exists (c :: rest), response. repeat split; try assumption. discriminate.
Qed.

(** X5.  [fetchArxivMetadata] returns a record exactly when the
    identifier is there, the endpoint answers 200 and the feed has an
    entry, and the record is then the one of the first entry. *)
Theorem fetchArxivMetadata_ok_iff
    (url : jsstring) (r : ArxivMetadataType.t) :
  fetchArxivMetadata' url = Ok r
  <-> exists entry : located,
        feed_entry' url entry /\ r = metadata_of_entry entry.
Proof.
  split.
  - apply fetchArxivMetadata_ok_entry.
  - intros (entry & Hfeed & ->).
    now apply fetchArxivMetadata_feed_entry.
Qed.

(** X6.  What [fetchArxivMetadata] can raise: [InvalidInput] only
    without an identifier, [UpstreamError] only with the status of an
    answer that is not 200, [NotFound] only on a 200 answer without an
    entry, the failure of the transport as it was thrown, and never a
    [TypeError]. *)
Theorem fetchArxivMetadata_errors (url : jsstring) (e : error) :
  fetchArxivMetadata' url = Raise e ->
  match e with
  | InvalidInput => no_identifier (extractArxivId url)
  | UpstreamError status =>
      status <> 200%Z
      /\ exists (arxivId : jsstring) (response : Response.t),
           extractArxivId url = Some arxivId
           /\ requestUrl (metadataRequest arxivId) = Answered response
           /\ Response.status response = status
  | NotFound =>
      exists (arxivId : jsstring) (response : Response.t),
        extractArxivId url = Some arxivId
        /\ requestUrl (metadataRequest arxivId) = Answered response
        /\ Response.status response = 200%Z
        /\ first_entry (Response.text response) = None
  | TypeError => False
  | HostFailure detail =>
      exists arxivId : jsstring,
        extractArxivId url = Some arxivId
        /\ requestUrl (metadataRequest arxivId) = Threw detail
  end.
Proof.
  unfold fetchArxivMetadata, no_identifier.
  destruct (extractArxivId url) as [[|c rest]|] eqn:Hid.
  - intros [= <-]. now right.
  - destruct (requestUrl (metadataRequest (c :: rest)))
      as [response|detail] eqn:Hreq; simpl.
    + destruct (Z.eqb_spec (Response.status response) 200) as [Hst|Hst];
        simpl.
      * unfold parseArxivResponse.
        destruct (querySelector _ _) as [entry|] eqn:He; [discriminate|].
        intros [= <-]. exists (c :: rest), response. now repeat split.
      * intros [= <-]. split; [exact Hst|].
        exists (c :: rest), response. now repeat split.
    + intros [= <-]. exists (c :: rest). now split.
  - intros [= <-]. now left.
Qed.

(** X7.  Whatever the feed holds, a returned record has a title that is
    not empty and has no whitespace at its ends, a date that is not empty
    and holds no [T], and an abstract in normal form. *)
Theorem fetchArxivMetadata_record_shape
    (url : jsstring) (r : ArxivMetadataType.t) :
  fetchArxivMetadata' url = Ok r ->
  (ArxivMetadataType.title r <> []
   /\ trimmed (ArxivMetadataType.title r) = true)
  /\ (ArxivMetadataType.publishDate r <> []
      /\ ~ In LETTER_T (ArxivMetadataType.publishDate r))
  /\ normalized (ArxivMetadataType.abstract r) = true.
Proof.
  intros H. apply fetchArxivMetadata_ok_entry in H as (entry & _ & ->).
  unfold metadata_of_entry.
  cbn [ArxivMetadataType.title ArxivMetadataType.publishDate
       ArxivMetadataType.abstract].
  split; [|split].
  - destruct (child_of entry "title") as [t|]; cbn [option_map or_default];
      [|split; [discriminate|reflexivity]].
    pose proof (trim_trimmed (textContent (here t))) as Ht.
    destruct (trim (textContent (here t))) as [|c u];
      [split; [discriminate|reflexivity]|].
    split; [discriminate|exact Ht].
  - destruct (child_of entry "published") as [p|]; cbn [or_default];
      [|split; [discriminate|intros H; simpl in H; intuition discriminate]].
    rewrite split_head.
    pose proof (before_first_without LETTER_T (textContent (here p))) as Hp.
    destruct (before_first LETTER_T (textContent (here p))) as [|c u];
      cbn [or_default].
    + split; [discriminate|intros H; simpl in H; intuition discriminate].
    + split; [discriminate|exact Hp].
  - apply formatAbstract_normalized.
Qed.

(** X8.  A title of whitespace only gives the fallback title, but a
    summary of whitespace only gives the empty abstract: the abstract of
    the record is empty exactly when the entry has a summary whose text
    is not empty and all whitespace. *)
Theorem fetchArxivMetadata_blank_fields (url : jsstring) (entry : located) :
  feed_entry' url entry ->
  exists r : ArxivMetadataType.t,
    fetchArxivMetadata' url = Ok r
    /\ (forall t : located,
          child_of entry "title" = Some t ->
          forallb is_whitespace (textContent (here t)) = true ->
          ArxivMetadataType.title r = NO_TITLE)
    /\ (ArxivMetadataType.abstract r = []
        <-> exists s : located,
              child_of entry "summary" = Some s
              /\ textContent (here s) <> []
              /\ forallb is_whitespace (textContent (here s)) = true).
Proof.
  intros Hfeed. exists (metadata_of_entry entry).
  split; [now apply fetchArxivMetadata_feed_entry|].
  unfold metadata_of_entry.
  cbn [ArxivMetadataType.title ArxivMetadataType.abstract].
  split.
  - intros t -> Hblank. apply trim_blank in Hblank.
    cbn [option_map]. now rewrite Hblank.
  - destruct (child_of entry "summary") as [s|]; cbn [option_map].
    + destruct (textContent (here s)) as [|c u] eqn:Ht; cbn [or_default].
      * split; [discriminate|].
        intros (s' & [= <-] & Hne & _). now rewrite Ht in Hne.
      * rewrite formatAbstract_blank. split.
        -- intros H. exists s. rewrite Ht. repeat split;
             [discriminate|exact H].
        -- intros (s' & [= <-] & _ & H). now rewrite Ht in H.
    + split; [discriminate|]. intros (s' & H & _). discriminate.
Qed.

End MetadataCoverage.

(** ** The citation pipeline, further *)

Section CitationCoverage.

Variable number : Type.
Variable number_zero : number.
Variable number_truthy : number -> bool.
Variable number_toString : number -> jsstring.
Variable requestUrl : Request.t -> outcome Response.t.
Variable JSON_parse : jsstring -> outcome (jsval number).

Local Abbreviation value := (jsval number).
Local Abbreviation getInfluentialPapers' :=
  (getInfluentialPapers number_truthy number_toString).
Local Abbreviation fetchCitationInfo' :=
  (fetchCitationInfo number_zero number_truthy number_toString
     requestUrl JSON_parse).
Local Abbreviation flagged := (flagged_influential number_truthy).
Local Abbreviation record_usable' := (record_usable number_truthy).
Local Abbreviation list_usable' := (list_usable number_truthy).
Local Abbreviation influential_of' :=
  (influential_of number_truthy number_toString).
Local Abbreviation body_usable' := (body_usable number_truthy).
Local Abbreviation present := (fun v : value => negb (nullish v)).

Lemma get_decide (v : value) (k : jsstring) :
  get v k = if present v then Ok (field v k) else Raise TypeError.
Proof.
  destruct v; simpl; try reflexivity. now destruct (lookup k props).
Qed.

Lemma authors_of_decide (paper : value) :
  nullish paper = false ->
  authors_of number_toString paper
  = if authors_readable paper
    then Ok (author_names number_toString paper)
    else Raise TypeError.
Proof.
  intros Hp. unfold authors_of, authors_readable, author_names.
  rewrite get_decide, Hp. simpl.
  destruct (field paper (lit "authors")) as [| | | | |items|];
    try reflexivity.
  unfold authors_joinable.
  rewrite (mapM_decide _ (fun author => field author (lit "name")) present)
    by (intros a _; apply get_decide).
  destruct (forallb present items); simpl; [|reflexivity].
  rewrite array_join_decide.
  destruct (forallb joinable _); simpl; [|reflexivity].
  rewrite map_map. now destruct (join _ _).
Qed.

Lemma reshape_decide (paper : value) :
  nullish paper = false ->
  reshape number_toString paper
  = if authors_readable paper
    then Ok (as_influential_paper number_toString paper)
    else Raise TypeError.
Proof.
  intros Hp. unfold reshape, as_influential_paper.
  rewrite (authors_of_decide paper Hp), !get_decide, Hp. simpl.
  now destruct (authors_readable paper).
Qed.

Lemma record_usable_split (items : list value) :
  forallb record_usable' items
  = forallb present items
    && forallb authors_readable (filter flagged items).
Proof.
  induction items as [|p t IH]; [reflexivity|].
  simpl. rewrite IH. unfold record_usable.
  destruct (nullish p); simpl; [reflexivity|].
  destruct (flagged p); simpl.
  - destruct (authors_readable p); simpl;
      [reflexivity|now rewrite andb_false_r].
  - reflexivity.
Qed.

Lemma getInfluentialPapers_decide (papers : value) :
  getInfluentialPapers' papers
  = if list_usable' papers then Ok (influential_of' papers)
    else Raise TypeError.
Proof.
  destruct papers as [| | | | |items|]; try reflexivity.
  unfold getInfluentialPapers, list_usable, influential_of.
  rewrite record_usable_split.
  rewrite (filterM_decide _ flagged present).
  - destruct (forallb present items) eqn:Hall; simpl; [|reflexivity].
    rewrite (mapM_decide _ (as_influential_paper number_toString)
               authors_readable).
    + now destruct (forallb authors_readable (filter flagged items)).
    + intros p Hp. apply filter_In in Hp as [Hp _].
      rewrite forallb_forall in Hall. specialize (Hall p Hp).
      apply negb_true_iff in Hall. now apply reshape_decide.
  - intros p _. rewrite get_decide. now destruct (present p).
Qed.

Lemma fetchCitationInfo_decide (arxivId : jsstring) (data : value) :
  citation_body requestUrl JSON_parse arxivId data ->
  fetchCitationInfo' arxivId
  = Ok (if body_usable' data
        then citation_info_of number_zero number_truthy number_toString data
        else emptyCitationInfo number_zero).
Proof.
  intros (response & Hreq & Hst & Hjson).
  unfold fetchCitationInfo, body_usable, citation_info_of.
  rewrite Hreq. simpl. rewrite Hst. simpl. rewrite Hjson. simpl.
  rewrite !get_decide.
  destruct (nullish data); simpl; [reflexivity|].
  rewrite !getInfluentialPapers_decide.
  destruct (list_usable' (field data (lit "citations"))); simpl;
    [|reflexivity].
  now destruct (list_usable' (field data (lit "references"))).
Qed.

(** X9.  [getInfluentialPapers] returns or raises by the shape of its
    argument alone: on an absent list, and on a list whose entries are all
    there and whose flagged entries have readable authors, it returns the
    reshaped flagged entries in order; on anything else it raises a
    [TypeError]. *)
Theorem getInfluentialPapers_by_shape (papers : value) :
  (list_usable number_truthy papers = true ->
   getInfluentialPapers number_truthy number_toString papers
   = Ok (influential_of number_truthy number_toString papers))
  /\ (list_usable number_truthy papers = false ->
      getInfluentialPapers number_truthy number_toString papers
      = Raise TypeError).
Proof.
  rewrite getInfluentialPapers_decide.
  split; intros ->; reflexivity.
Qed.

(** X10.  Whatever the argument, a returned sequence holds only papers
    whose [isInfluential] is truthy and is no longer than the list it was
    taken from. *)
Theorem getInfluentialPapers_result_flagged
    (papers : value) (l : list (InfluentialPaper.t number)) :
  getInfluentialPapers' papers = Ok l ->
  Forall (fun paper =>
            truthy number_truthy (InfluentialPaper.isInfluential paper) = true)
    l
  /\ length l <= length (items_of papers).
Proof.
  rewrite getInfluentialPapers_decide.
  destruct (list_usable' papers); [|discriminate].
  intros [= <-]. destruct papers as [| | | | |items|]; simpl;
    try (split; [constructor|lia]).
  split.
  - apply Forall_map, Forall_forall. intros p Hp.
    apply filter_In in Hp as [_ Hp]. exact Hp.
  - rewrite length_map. apply filter_length_le.
Qed.

(** X11.  On a 200 answer whose body is there and whose two lists are
    usable, [fetchCitationInfo] returns the counts of the body (0 for a
    falsy or missing one) and the influential papers of each list. *)
Theorem fetchCitationInfo_success (arxivId : jsstring) (data : value) :
  citation_body requestUrl JSON_parse arxivId data ->
  body_usable' data = true ->
  fetchCitationInfo' arxivId
  = Ok (CitationInfo.Build
          (or_zero number_zero number_truthy (field data (lit "numCitedBy")))
          (or_zero number_zero number_truthy (field data (lit "numCiting")))
          (influential_of' (field data (lit "citations")))
          (influential_of' (field data (lit "references")))).
Proof.
  intros Hbody Hok.
  rewrite (fetchCitationInfo_decide arxivId data Hbody), Hok.
  reflexivity.
Qed.

(** X12.  The result is all or nothing: when the body is [null] or one of
    its two lists is not usable, the zero record is returned and the
    counts of the body are dropped with the rest. *)
Theorem fetchCitationInfo_all_or_nothing (arxivId : jsstring) (data : value) :
  citation_body requestUrl JSON_parse arxivId data ->
  nullish data = true
  \/ list_usable' (field data (lit "citations")) = false
  \/ list_usable' (field data (lit "references")) = false ->
  fetchCitationInfo' arxivId
  = Ok (CitationInfo.Build (VNumber number_zero) (VNumber number_zero) [] []).
Proof.
  intros Hbody Hbad.
  rewrite (fetchCitationInfo_decide arxivId data Hbody).
  unfold body_usable.
  destruct Hbad as [-> | [-> | ->]]; simpl; rewrite ?andb_false_r; reflexivity.
Qed.

End CitationCoverage.

(** ** The command get-text-from-pdf *)

Section PdfCommandProperties.

Variable vault : Type.
Variable file : Type.
Variable bytes : Type.
Variable is_TFile : file -> bool.
Variable getAbstractFileByPath : vault -> jsstring -> option file.
Variable readBinary : vault -> file -> outcome bytes.
Variable extractTextFromPDF : bytes -> outcome jsstring.
Variable modify : vault -> file -> jsstring -> vault * outcome unit.
Variable create : vault -> jsstring -> jsstring -> vault * outcome unit.

Local Abbreviation run :=
  (run_getTextFromPdf is_TFile getAbstractFileByPath readBinary
     extractTextFromPDF modify create).
Local Abbreviation pdf_text' :=
  (pdf_text is_TFile getAbstractFileByPath readBinary extractTextFromPDF).

(** The case analysis of a run: on the lookups and on each call into the
    host. *)
Ltac pdf_cases v :=
  unfold run_getTextFromPdf, getTextFromPdf, command_try, command_bind,
    vault_lookup, vault_readBinary, pdf_extract, vault_modify, vault_create,
    emit;
  cbn [fst snd];
  let f := fresh "f" in
  let Hf := fresh "Hfile" in
  destruct (getAbstractFileByPath v PDF_PATH) as [f|] eqn:Hf; cbn [fst snd];
  [ let Hk := fresh "Hkind" in
    destruct (is_TFile f) eqn:Hk; cbn [fst snd];
    [ let buffer := fresh "buffer" in
      let Hr := fresh "Hread" in
      destruct (readBinary v f) as [buffer|?] eqn:Hr; cbn [fst snd host];
      [ let text := fresh "text" in
        let Hx := fresh "Hextract" in
        destruct (extractTextFromPDF buffer) as [text|?] eqn:Hx;
        cbn [fst snd host];
        [ let existing := fresh "existing" in
          let He := fresh "Htarget" in
          destruct (getAbstractFileByPath v NEW_FILE_NAME) as [existing|] eqn:He;
          cbn [fst snd];
          [ let Hw := fresh "Hwrite" in
            destruct (modify v existing text) as [? [[]|?]] eqn:Hw;
            cbn [fst snd host]
          | let Hw := fresh "Hwrite" in
            destruct (create v NEW_FILE_NAME text) as [? [[]|?]] eqn:Hw;
            cbn [fst snd host] ]
        | ]
      | ]
    | ]
  | ].

(** X13.  A run never raises and shows exactly one notice, whatever the
    host does. *)
Theorem getTextFromPdf_one_notice (v : vault) :
  snd (run v) = Ok tt
  /\ length (filter is_notice (snd (fst (run v)))) = 1.
Proof.
  pdf_cases v; split; reflexivity.
Qed.

(** X14.  A run writes to the vault at most once and only the text
    extracted from the PDF: the vault it leaves is the one it found, or
    the one a [modify] of the existing target left, or the one a [create]
    of the missing target left. *)
Theorem getTextFromPdf_writes (v : vault) :
  fst (fst (run v)) = v
  \/ (exists (text : jsstring) (existing : file),
        pdf_text' v text
        /\ getAbstractFileByPath v NEW_FILE_NAME = Some existing
        /\ fst (fst (run v)) = fst (modify v existing text))
  \/ (exists text : jsstring,
        pdf_text' v text
        /\ getAbstractFileByPath v NEW_FILE_NAME = None
        /\ fst (fst (run v)) = fst (create v NEW_FILE_NAME text)).
Proof.
  pdf_cases v; try (left; reflexivity).
  - right; left. exists text, existing. rewrite Hwrite.
    repeat split; try assumption. exists f, buffer. now repeat split.
  - right; left. exists text, existing. rewrite Hwrite.
    repeat split; try assumption. exists f, buffer. now repeat split.
  - right; right. exists text. rewrite Hwrite.
    repeat split; try assumption. exists f, buffer. now repeat split.
  - right; right. exists text. rewrite Hwrite.
    repeat split; try assumption. exists f, buffer. now repeat split.
Qed.

(** X15.  A notice of success is shown only after the write answered:
    with "updated" the target was there and its [modify] answered, with
    "created" the target was missing and its [create] answered; the
    vault left is the one of that write and the extracted text is
    logged. *)
Theorem getTextFromPdf_success_notice (v : vault) (message : jsstring) :
  In (Notice message) (snd (fst (run v))) ->
  message = MSG_UPDATED \/ message = MSG_CREATED ->
  exists text : jsstring,
    pdf_text' v text
    /\ In (ConsoleLog LOG_LABEL text) (snd (fst (run v)))
    /\ ((message = MSG_UPDATED
         /\ exists existing : file,
              getAbstractFileByPath v NEW_FILE_NAME = Some existing
              /\ modify v existing text = (fst (fst (run v)), Answered tt))
        \/ (message = MSG_CREATED
            /\ getAbstractFileByPath v NEW_FILE_NAME = None
            /\ create v NEW_FILE_NAME text
               = (fst (fst (run v)), Answered tt))).
Proof.
  pdf_cases v; simpl;
    intros Hin Hmsg;
    repeat match goal with
           | H : _ \/ _ |- _ => destruct H
           | H : False |- _ => contradiction
           | H : Notice _ = Notice _ |- _ => injection H as <-
           | H : ConsoleLog _ _ = Notice _ |- _ => discriminate H
           | H : ConsoleError _ _ = Notice _ |- _ => discriminate H
           end;
    try discriminate.
  - exists text. split; [exists f, buffer; now repeat split|].
    split; [now right; left|]. left. split; [reflexivity|].
    exists existing. now split.
  - exists text. split; [exists f, buffer; now repeat split|].
    split; [now right; left|]. right. now repeat split.
Qed.

(** X16.  The notice "not found" is shown exactly when the path of the
    PDF names nothing, the notice "not a valid file" exactly when it
    names something that is not a file; in both cases the vault is left
    as it was. *)
Theorem getTextFromPdf_missing_or_invalid (v : vault) :
  (In (Notice MSG_PDF_NOT_FOUND) (snd (fst (run v)))
   <-> getAbstractFileByPath v PDF_PATH = None)
  /\ (In (Notice MSG_INVALID_FILE) (snd (fst (run v)))
      <-> exists f : file,
            getAbstractFileByPath v PDF_PATH = Some f /\ is_TFile f = false)
  /\ (In (Notice MSG_PDF_NOT_FOUND) (snd (fst (run v)))
      \/ In (Notice MSG_INVALID_FILE) (snd (fst (run v))) ->
      fst (fst (run v)) = v).
Proof.
  pdf_cases v; simpl;
    (split; [|split]);
    try (split; intros H);
    try intros H;
    repeat match goal with
           | H : _ \/ _ |- _ => destruct H
           | H : False |- _ => contradiction
           | H : exists _, _ |- _ => destruct H as [? [? ?]]
           | H : Some _ = Some _ |- _ => injection H as <-
           end;
    try discriminate; try congruence; try reflexivity; auto.
  exists f. now split.
Qed.

End PdfCommandProperties.

(** ** The settings *)

Lemma jsstring_eqb_eq (a b : jsstring) : jsstring_eqb a b = true <-> a = b.
Proof.
  revert b. induction a as [|x a IH]; intros [|y b]; simpl;
    try (split; [discriminate|discriminate]); [tauto|].
  rewrite andb_true_iff, N.eqb_eq, IH.
  split; [intros [-> ->]; reflexivity|intros [= -> ->]; now split].
Qed.

Lemma jsstring_eqb_refl (a : jsstring) : jsstring_eqb a a = true.
Proof. now apply jsstring_eqb_eq. Qed.

Lemma jsstring_eqb_neq (a b : jsstring) : a <> b -> jsstring_eqb a b = false.
Proof.
  intros H. destruct (jsstring_eqb a b) eqn:E; [|reflexivity].
  now apply jsstring_eqb_eq in E.
Qed.

Section SettingsProperties.

Variable number : Type.
Variable store : Type.
Variable loadData : store -> outcome (jsval number).
Variable saveData : store -> jsval number -> store * outcome unit.

Local Abbreviation value := (jsval number).
Local Abbreviation object := (plain_object number).
Local Abbreviation assign_entries entries target :=
  (fold_left (fun (obj : object) kv => set_property (fst kv) (snd kv) obj)
     entries target).

Lemma lookup_put (k k' : jsstring) (v : value) (obj : object) :
  lookup k (put k' v obj) = if jsstring_eqb k' k then Some v else lookup k obj.
Proof.
  induction obj as [|[k0 v0] rest IH]; simpl; [reflexivity|].
  destruct (jsstring_eqb k0 k') eqn:E0; simpl.
  - apply jsstring_eqb_eq in E0. subst k0.
    now destruct (jsstring_eqb k' k).
  - rewrite IH. destruct (jsstring_eqb k0 k) eqn:E1; [|reflexivity].
    apply jsstring_eqb_eq in E1. subst k0.
    destruct (jsstring_eqb k' k) eqn:E2; [|reflexivity].
    apply jsstring_eqb_eq in E2. subst k'.
    now rewrite jsstring_eqb_refl in E0.
Qed.

Lemma lookup_set_property (k k' : jsstring) (v : value) (obj : object) :
  k <> PROTO_KEY ->
  lookup k (set_property k' v obj)
  = if jsstring_eqb k' k then Some v else lookup k obj.
Proof.
  intros Hk. unfold set_property.
  destruct (jsstring_eqb k' PROTO_KEY) eqn:E; [|apply lookup_put].
  apply jsstring_eqb_eq in E. subst k'.
  rewrite jsstring_eqb_neq; [reflexivity|]. intros H. now apply Hk.
Qed.

Lemma lookup_absent (k : jsstring) (entries : object) :
  ~ In k (map fst entries) -> lookup k entries = None.
Proof.
  induction entries as [|[k0 v0] rest IH]; simpl; [reflexivity|].
  intros H. rewrite jsstring_eqb_neq by tauto. apply IH. tauto.
Qed.

Lemma lookup_assign_absent (k : jsstring) (entries target : object) :
  k <> PROTO_KEY -> ~ In k (map fst entries) ->
  lookup k (assign_entries entries target) = lookup k target.
Proof.
  intros Hk. revert target.
  induction entries as [|[k0 v0] rest IH]; intros target H; simpl in *;
    [reflexivity|].
  rewrite IH by tauto. rewrite lookup_set_property by exact Hk.
  rewrite jsstring_eqb_neq by tauto. reflexivity.
Qed.

Lemma lookup_assign_present (k : jsstring) (v : value)
    (entries target : object) :
  k <> PROTO_KEY -> NoDup (map fst entries) ->
  lookup k entries = Some v ->
  lookup k (assign_entries entries target) = Some v.
Proof.
  intros Hk. revert target.
  induction entries as [|[k0 v0] rest IH]; intros target Hnd Hl; simpl in *;
    [discriminate|].
  inversion Hnd as [|x l Hnotin Hnd']; subst.
  destruct (jsstring_eqb k0 k) eqn:E.
  - apply jsstring_eqb_eq in E. subst k0. injection Hl as ->.
    rewrite lookup_assign_absent by assumption.
    rewrite lookup_set_property by exact Hk.
    now rewrite jsstring_eqb_refl.
  - now apply IH.
Qed.

Lemma index_key_not_mySetting (i : nat) : index_key i <> MY_SETTING.
Proof.
  unfold index_key. destruct (Nat.to_uint i); discriminate.
Qed.

Lemma indexed_keys {A : Type} (f : A -> value) (l : list A) (i : nat) :
  ~ In MY_SETTING (map fst (indexed f i l)).
Proof.
  revert i. induction l as [|x t IH]; intros i; simpl; [tauto|].
  intros [H|H]; [now apply (index_key_not_mySetting i)|now apply (IH (S i))].
Qed.

Lemma mySetting_not_proto : MY_SETTING <> PROTO_KEY.
Proof. discriminate. Qed.

Lemma assign_mySetting (data : value) :
  unique_keys data ->
  lookup MY_SETTING
    (Object_assign [] [VObject (DEFAULT_SETTINGS number); data])
  = Some (stored_or_default data).
Proof.
  intros Hu. unfold Object_assign. cbn [fold_left].
  change (assign_from [] (VObject (DEFAULT_SETTINGS number)))
    with (DEFAULT_SETTINGS number).
  unfold assign_from, stored_or_default.
  destruct data as [| |b|n|s|items|props]; cbn [nullish own_enumerable];
    try reflexivity.
  - rewrite lookup_assign_absent;
      [reflexivity|exact mySetting_not_proto|apply indexed_keys].
  - rewrite lookup_assign_absent;
      [reflexivity|exact mySetting_not_proto|apply indexed_keys].
  - destruct (lookup MY_SETTING props) as [v|] eqn:El.
    + now apply lookup_assign_present;
        [exact mySetting_not_proto|exact Hu|exact El].
    + rewrite lookup_assign_absent; [reflexivity|exact mySetting_not_proto|].
      intros Hin. clear Hu.
      induction props as [|[k0 v0] rest IH]; simpl in *; [contradiction|].
      destruct (jsstring_eqb k0 MY_SETTING) eqn:E; [discriminate|].
      destruct Hin as [->|Hin]; [now rewrite jsstring_eqb_refl in E|].
      now apply IH.
Qed.

(** X17.  After [loadSettings] the settings always have [mySetting]: the
    stored one when the stored data is an object that has it, the default
    otherwise (no data, [null], or data of another shape); and every
    other stored property of an object is carried over. *)
Theorem loadSettings_merges (st : store) (data : value) :
  loadData st = Answered data ->
  unique_keys data ->
  exists settings : object,
    loadSettings loadData st = Ok settings
    /\ lookup MY_SETTING settings = Some (stored_or_default data)
    /\ (forall (props : object) (k : jsstring) (v : value),
          data = VObject props -> k <> PROTO_KEY ->
          lookup k props = Some v -> lookup k settings = Some v).
Proof.
  intros Hload Hu. unfold loadSettings. rewrite Hload. simpl.
  eexists. split; [reflexivity|]. split.
  - now apply assign_mySetting.
  - intros props k v -> Hk Hl. unfold Object_assign. cbn [fold_left].
    unfold assign_from at 1. cbn [nullish own_enumerable].
    now apply lookup_assign_present.
Qed.

Lemma put_keys_in (k : jsstring) (v : value) (obj : object) (x : jsstring) :
  In x (map fst (put k v obj)) -> x = k \/ In x (map fst obj).
Proof.
  induction obj as [|[k0 v0] rest IH]; simpl.
  - intros [H|H]; [now left|contradiction].
  - destruct (jsstring_eqb k0 k); simpl.
    + intros H. now right.
    + intros [H|H]; [right; now left|].
      destruct (IH H) as [H'|H']; [now left|right; now right].
Qed.

Lemma put_keys (k : jsstring) (v : value) (obj : object) :
  NoDup (map fst obj) -> NoDup (map fst (put k v obj)).
Proof.
  induction obj as [|[k0 v0] rest IH]; simpl; intros Hnd.
  - constructor; [intros H; contradiction|constructor].
  - inversion Hnd as [|x l Hnotin Hnd']; subst.
    destruct (jsstring_eqb k0 k) eqn:E; simpl.
    + now constructor.
    + constructor; [|now apply IH].
      intros H. apply put_keys_in in H as [->|H].
      * now rewrite jsstring_eqb_refl in E.
      * now apply Hnotin.
Qed.

(** The store gives back what was saved. *)
Hypothesis store_keeps :
  forall (st st' : store) (v : value),
    saveData st v = (st', Answered tt) -> loadData st' = Answered v.

(** X18.  A value typed into the settings tab survives a reload: after
    [onChange] has saved, [loadSettings] on the store it left gives
    settings whose [mySetting] is that value, as the settings in memory
    have it. *)
Theorem onChange_then_loadSettings
    (value : jsstring) (st st' : store) (settings settings' : object) :
  NoDup (map fst settings) ->
  onChange saveData value st settings = (st', settings', Ok tt) ->
  lookup MY_SETTING settings' = Some (VString value)
  /\ exists reloaded : object,
       loadSettings loadData st' = Ok reloaded
       /\ lookup MY_SETTING reloaded = Some (VString value).
Proof.
  intros Hnd. unfold onChange, saveSettings.
  destruct (saveData st (VObject (put MY_SETTING (VString value) settings)))
    as [st0 [[]|detail]] eqn:Hsave; simpl; [|discriminate].
  intros [= <- <-].
  assert (Hl : lookup MY_SETTING (put MY_SETTING (VString value) settings)
               = Some (VString value)).
  { rewrite lookup_put. now rewrite jsstring_eqb_refl. }
  split; [exact Hl|].
  unfold loadSettings. rewrite (store_keeps _ _ _ Hsave).
  exists (Object_assign []
            [VObject (DEFAULT_SETTINGS number);
             VObject (put MY_SETTING (VString value) settings)]).
  split; [reflexivity|].
  rewrite assign_mySetting by (simpl; now apply put_keys).
  unfold stored_or_default. now rewrite Hl.
Qed.

End SettingsProperties.

(** ** The further properties on the sample host *)

Lemma blank_feed_entry :
  feed_entry sample_extractArxivId (answer_with 200 (feed_text blank_feed))
    blank_parseFromString sample_url blank_located_entry.
Proof.
  exists sample_id, (Response.Build 200 (feed_text blank_feed)).
  repeat split; try reflexivity. discriminate.
Defined.

(** X6, on an answer with status 503. *)
Lemma fetchArxivMetadata_errors_upstream :
  fetchArxivMetadata sample_extractArxivId (answer_with 503 [])
    sample_parseFromString sample_url
  = Raise (UpstreamError 503)
  /\ (503 <> 200)%Z
  /\ exists (arxivId : jsstring) (response : Response.t),
       sample_extractArxivId sample_url = Some arxivId
       /\ answer_with 503 [] (metadataRequest arxivId) = Answered response
       /\ Response.status response = 503%Z.
Proof.
  split; [reflexivity|].
  exact (fetchArxivMetadata_errors sample_extractArxivId (answer_with 503 [])
           sample_parseFromString sample_url (UpstreamError 503) eq_refl).
Defined.

(** X7, on the sample feed. *)
Lemma fetchArxivMetadata_record_shape_sample :
  fetchArxivMetadata sample_extractArxivId
    (answer_with 200 (feed_text sample_feed)) sample_parseFromString sample_url
  = Ok sample_record
  /\ (ArxivMetadataType.title sample_record <> []
      /\ trimmed (ArxivMetadataType.title sample_record) = true)
  /\ (ArxivMetadataType.publishDate sample_record <> []
      /\ ~ In LETTER_T (ArxivMetadataType.publishDate sample_record))
  /\ normalized (ArxivMetadataType.abstract sample_record) = true.
Proof.
  split; [reflexivity|].
  exact (fetchArxivMetadata_record_shape sample_extractArxivId
           (answer_with 200 (feed_text sample_feed)) sample_parseFromString
           sample_url sample_record eq_refl).
Defined.

(** X8, on the feed with a blank title and a blank summary. *)
Lemma fetchArxivMetadata_blank_fields_sample :
  exists r : ArxivMetadataType.t,
    fetchArxivMetadata sample_extractArxivId
      (answer_with 200 (feed_text blank_feed)) blank_parseFromString sample_url
    = Ok r
    /\ ArxivMetadataType.title r = NO_TITLE
    /\ ArxivMetadataType.abstract r = [].
Proof.
  destruct (fetchArxivMetadata_blank_fields sample_extractArxivId
              (answer_with 200 (feed_text blank_feed)) blank_parseFromString
              sample_url blank_located_entry blank_feed_entry)
    as (r & Hr & Ht & Ha).
  exists r. split; [exact Hr|]. split.
  - exact (Ht (Located (leaf "title" (lit "   ")) [lit "entry"; lit "feed"])
             eq_refl eq_refl).
  - apply Ha.
    exists (Located (leaf "summary" blank_summary) [lit "entry"; lit "feed"]).
    split; [reflexivity|]. split; [discriminate|reflexivity].
Defined.

(** X10, on the three sample records. *)
Lemma getInfluentialPapers_result_flagged_sample :
  getInfluentialPapers integer_truthy integer_toString (VArray sample_papers)
  = Ok [influential_p2]
  /\ Forall (fun paper =>
               truthy integer_truthy (InfluentialPaper.isInfluential paper)
               = true) [influential_p2]
  /\ length [influential_p2] <= length sample_papers.
Proof.
  split; [reflexivity|].
  exact (getInfluentialPapers_result_flagged Z integer_truthy integer_toString
           (VArray sample_papers) [influential_p2] eq_refl).
Defined.

Lemma papers_citation_body :
  citation_body (answer_with 200 papers_body) papers_JSON_parse sample_id
    papers_data.
Proof.
  exists (Response.Build 200 papers_body). repeat split.
Defined.

Lemma broken_citation_body :
  citation_body (answer_with 200 broken_body) papers_JSON_parse sample_id
    broken_data.
Proof.
  exists (Response.Build 200 broken_body). repeat split.
Defined.

(** X11, on a body with a count and one influential citation. *)
Lemma fetchCitationInfo_success_sample :
  body_usable integer_truthy papers_data = true
  /\ fetchCitationInfo 0%Z integer_truthy integer_toString
       (answer_with 200 papers_body) papers_JSON_parse sample_id
     = Ok (CitationInfo.Build (VNumber 2%Z) (VNumber 0%Z) [papers_p2] []).
Proof.
  split; [reflexivity|].
  exact (fetchCitationInfo_success Z 0%Z integer_truthy integer_toString
           (answer_with 200 papers_body) papers_JSON_parse sample_id
           papers_data papers_citation_body eq_refl).
Defined.

(** X12, on a body whose count is 12 and whose citations hold a [null]. *)
Lemma fetchCitationInfo_all_or_nothing_sample :
  list_usable integer_truthy (field broken_data (lit "citations")) = false
  /\ fetchCitationInfo 0%Z integer_truthy integer_toString
       (answer_with 200 broken_body) papers_JSON_parse sample_id
     = Ok (CitationInfo.Build (VNumber 0%Z) (VNumber 0%Z) [] []).
Proof.
  split; [reflexivity|].
  exact (fetchCitationInfo_all_or_nothing Z 0%Z integer_truthy
           integer_toString (answer_with 200 broken_body) papers_JSON_parse
           sample_id broken_data broken_citation_body
           (or_intror (or_introl eq_refl))).
Defined.

(** X15, on a vault that holds the PDF and no extracted file yet. *)
Lemma getTextFromPdf_success_notice_sample :
  In (Notice MSG_CREATED) (snd (fst (sample_run pdf_only_vault)))
  /\ exists text : jsstring,
       sample_pdf_text pdf_only_vault text
       /\ In (ConsoleLog LOG_LABEL text) (snd (fst (sample_run pdf_only_vault)))
       /\ fst (fst (sample_run pdf_only_vault))
          = pdf_only_vault ++ [(NEW_FILE_NAME, text)].
Proof.
  assert (Hin : In (Notice MSG_CREATED)
                  (snd (fst (sample_run pdf_only_vault))))
    by (left; reflexivity).
  split; [exact Hin|].
  destruct (getTextFromPdf_success_notice sample_vault jsstring jsstring
              (fun _ : jsstring => true) sample_find sample_content
              (fun b : jsstring => Answered b)
              (fun v f data => (sample_modify v f data, Answered tt))
              (fun v path data => (v ++ [(path, data)], Answered tt))
              pdf_only_vault MSG_CREATED Hin (or_intror eq_refl))
    as (text & Htext & Hlog & [[Hmsg _]|(_ & _ & Hcreate)]).
  - discriminate Hmsg.
  - exists text. split; [exact Htext|]. split; [exact Hlog|].
    now injection Hcreate as ->.
Defined.

(** X17, on stored settings with [mySetting] and one more property. *)
Lemma loadSettings_merges_sample :
  sample_loadData (Some stored_settings) = Answered stored_settings
  /\ exists settings : plain_object Z,
       loadSettings sample_loadData (Some stored_settings) = Ok settings
       /\ lookup MY_SETTING settings = Some (VString (lit "abc"))
       /\ lookup (lit "theme") settings = Some (VString (lit "dark")).
Proof.
  split; [reflexivity|].
  assert (Hu : unique_keys stored_settings).
  { simpl. repeat constructor; simpl; intuition discriminate. }
  destruct (loadSettings_merges Z sample_store sample_loadData
              (Some stored_settings) stored_settings eq_refl Hu)
    as (settings & Hs & Hmy & Hother).
  exists settings. split; [exact Hs|]. split; [exact Hmy|].
  apply (Hother _ (lit "theme") (VString (lit "dark")) eq_refl);
    [discriminate|reflexivity].
Defined.

(** X18, on the store that keeps the last value saved. *)
Lemma onChange_then_loadSettings_sample :
  onChange sample_saveData (lit "abc") None (DEFAULT_SETTINGS Z)
  = (Some (VObject [(MY_SETTING, VString (lit "abc"))]),
     [(MY_SETTING, VString (lit "abc"))], Ok tt)
  /\ exists reloaded : plain_object Z,
       loadSettings sample_loadData
         (Some (VObject [(MY_SETTING, VString (lit "abc"))])) = Ok reloaded
       /\ lookup MY_SETTING reloaded = Some (VString (lit "abc")).
Proof.
  split; [reflexivity|].
  assert (Hkeeps : forall (st st' : sample_store) (v : jsval Z),
             sample_saveData st v = (st', Answered tt) ->
             sample_loadData st' = Answered v).
  { intros st st' v [= <-]. reflexivity. }
  assert (Hnd : NoDup (map fst (DEFAULT_SETTINGS Z))).
  { simpl. repeat constructor. simpl. intuition. }
  exact (proj2 (onChange_then_loadSettings Z sample_store sample_loadData
                  sample_saveData Hkeeps (lit "abc") None
                  (Some (VObject [(MY_SETTING, VString (lit "abc"))]))
                  (DEFAULT_SETTINGS Z) [(MY_SETTING, VString (lit "abc"))]
                  Hnd eq_refl)).
Defined.

(** ** The requests of the two fetches *)

(** X19.  Each fetch asks the transport one question: the metadata fetch
    at the query URL of the identifier with the client header, the
    citation fetch at the paper URL of the identifier; two transports
    that answer that request alike give the same result, and different
    identifiers are never asked at the same URL. *)
Theorem fetch_single_request
    (number : Type) (number_zero : number) (number_truthy : number -> bool)
    (number_toString : number -> jsstring)
    (extractArxivId : jsstring -> option jsstring)
    (DOMParser_parseFromString : jsstring -> document)
    (JSON_parse : jsstring -> outcome (jsval number))
    (transport1 transport2 : Request.t -> outcome Response.t) :
  (forall url arxivId : jsstring,
     extractArxivId url = Some arxivId ->
     transport1 (metadataRequest arxivId) = transport2 (metadataRequest arxivId) ->
     fetchArxivMetadata extractArxivId transport1 DOMParser_parseFromString url
     = fetchArxivMetadata extractArxivId transport2 DOMParser_parseFromString
         url)
  /\ (forall arxivId : jsstring,
        transport1 (citationRequest arxivId)
        = transport2 (citationRequest arxivId) ->
        fetchCitationInfo number_zero number_truthy number_toString
          transport1 JSON_parse arxivId
        = fetchCitationInfo number_zero number_truthy number_toString
            transport2 JSON_parse arxivId)
  /\ (forall a b : jsstring,
        (Request.url (metadataRequest a) = Request.url (metadataRequest b)
         -> a = b)
        /\ (Request.url (citationRequest a) = Request.url (citationRequest b)
            -> a = b)).
Proof.
  split; [|split].
  - intros url arxivId Hid Hsame. unfold fetchArxivMetadata. rewrite Hid.
    destruct arxivId as [|c rest]; [reflexivity|]. now rewrite Hsame.
  - intros arxivId Hsame. unfold fetchCitationInfo. now rewrite Hsame.
  - intros a b. split; unfold metadataRequest, citationRequest;
      cbn [Request.url]; intros H.
    + now apply app_inv_head in H.
    + now apply app_inv_head, app_inv_head in H.
Qed.

(** ** Author names without a text *)

Example getInfluentialPapers_hidden_name :
  is_paper_record hidden_name_paper = false
  /\ getInfluentialPapers integer_truthy integer_toString
       (VArray [hidden_name_paper])
     = Raise TypeError.
Proof. split; reflexivity. Qed.

Example getInfluentialPapers_nested_hidden_name :
  getInfluentialPapers integer_truthy integer_toString
    (VArray
       [ VObject
           [ (lit "isInfluential", VBool true);
             (lit "authors",
               VArray
                 [ VObject
                     [(lit "name",
                        VArray [VString (lit "A");
                                VObject [(lit "toString", VNull)]])] ]) ] ])
  = Raise TypeError.
Proof. reflexivity. Qed.

Example getInfluentialPapers_object_name :
  getInfluentialPapers integer_truthy integer_toString
    (VArray
       [ VObject
           [ (lit "isInfluential", VBool true);
             (lit "authors",
               VArray
                 [ VObject [(lit "name", VObject [(lit "first", VNull)])];
                   VObject [(lit "name", VArray [VNumber 1%Z; VNull; VNumber 2%Z])] ]) ] ])
  = Ok [ InfluentialPaper.Build VUndefined VUndefined VUndefined VUndefined
           VUndefined (lit "[object Object], 1,,2") VUndefined VUndefined
           (VBool true) VUndefined VUndefined ].
Proof. reflexivity. Qed.

Example fetchCitationInfo_hidden_name :
  body_usable integer_truthy hidden_name_data = false
  /\ fetchCitationInfo 0%Z integer_truthy integer_toString
       (answer_with 200 hidden_name_body) hidden_name_JSON_parse sample_id
     = Ok (CitationInfo.Build (VNumber 0%Z) (VNumber 0%Z) [] []).
Proof. split; reflexivity. Qed.
